(** * Financial dashboard: the metric queries of FINANCIAL.py

    The program computes its figures with SQL text sent to PostgreSQL:
    [load_general_metrics], [load_transaction_trend], [load_asset_metrics],
    [load_user_counts], [load_total_users_by_asset_type],
    [get_asset_types] and [load_user_insights].  Each query is embedded
    here as a function from a database snapshot to its result rows, clause
    by clause (FROM/JOIN, WHERE, GROUP BY, aggregates, ORDER BY), with the
    common table expressions as named definitions; [get_date_range] and
    the row selections of the pages are embedded as functions.

    Modelling conventions.
    - A table with a primary key [id] is a [gmap] from the key to the other
      columns, so [LEFT JOIN x ON x.id = e] is a lookup; [transactions] is
      a list of rows.  A derived table (a CTE) is a list and is joined with
      the generic [left_join].
    - A nullable value is an [option]; SQL comparisons are true only on
      two non-null operands, and WHERE / FILTER keep the rows on which
      their condition is true.
    - [numeric] amounts are exact rationals [Qc], and a value column of a
      result holds what the query computes.  PostgreSQL rounds a numeric
      quotient at a finite scale; the quotients of the source (fee rates,
      AVG) are kept exact here.  [pd.read_sql] then hands each value on as
      a float64: a conversion that keeps an absent value absent, and zero,
      the sign and the order of the values, but not their sums and
      differences.  So what is stated of a returned value is its absence,
      its sign or its place in the order, or the total that it is the
      float64 of ([read_value]); no statement relates the returned values
      of several aggregates by an equation.  The counts are integers
      throughout.
    - A result without ORDER BY is a list here, in the order of the table
      it is read from; the database may return its rows in any order, and
      such a result is only spoken of through its members and counts.
    - A timestamp is a number of seconds ([Z]) and a date a number of days,
      both counted from 1970-01-01.  The window bounds are dates: compared
      with a timestamp they stand for midnight of that day, compared with
      [DATE(ts)] they are days.
    - Text is a string of bytes holding UTF-8.  ILIKE folds the letters A
      to Z to a to z and leaves every other character as it is (what the
      database does to other characters depends on its locale, which the
      source does not fix); the [_] of a LIKE pattern stands for one
      character, which may take several bytes.
    - Schema: [id], [tx_type], [status], [updated_at], [amount] and
      [usd_amount] are taken as NOT NULL; [metadata], [provider_number],
      the plan references, [user_id], [plan_option], [asset_id], [name] and
      [restricted] are nullable.  Of [base_data] only the columns that the
      aggregates read are kept.
    - The [except] branches of the Python wrappers (the data source is
      unreachable or rejects the query) are outside the model. *)

From Stdlib Require Import ZArith QArith Qcanon Ascii String.
From stdpp Require Import base option list gmap strings numbers sorting.

Local Open Scope Z_scope.

(** ** SQL operators *)

Module Sql.

(** [a = b]: true only when both operands are non-null and equal. *)
Definition eq {A} (a b : option A) : Prop :=
  match a, b with
  | Some x, Some y => x = y
  | _, _ => False
  end.

(** [a != b]: true only when both operands are non-null and different. *)
Definition ne {A} (a b : option A) : Prop :=
  match a, b with
  | Some x, Some y => x ≠ y
  | _, _ => False
  end.

#[global] Instance eq_dec `{EqDecision A} (a b : option A) : Decision (eq a b).
Proof. destruct a, b; simpl; apply _. Defined.

#[global] Instance ne_dec `{EqDecision A} (a b : option A) : Decision (ne a b).
Proof. destruct a, b; simpl; apply _. Defined.

(** [COALESCE(a, b)] on two nullable operands. *)
Definition coalesce {A} (a b : option A) : option A :=
  match a with
  | Some x => Some x
  | None => b
  end.

(** [COALESCE(a, d)] with a non-null default. *)
Definition coalesce0 {A} (a : option A) (d : A) : A :=
  match a with
  | Some x => x
  | None => d
  end.

(** The non-null values of a column. *)
Definition non_null {A} (l : list (option A)) : list A := omap id l.

(** [COUNT( * )]. *)
Definition count {A} (l : list A) : nat := length l.

(** [COUNT(DISTINCT e)]: nulls are not counted. *)
Definition distinct {A} `{EqDecision A} (l : list (option A)) : list A :=
  remove_dups (non_null l).

Definition count_distinct {A} `{EqDecision A} (l : list (option A)) : nat :=
  length (distinct l).

(** [SUM(e)] over non-null numerics: null on no input row. *)
Definition sum (l : list Qc) : option Qc :=
  match l with
  | [] => None
  | _ => Some (foldr Qcplus 0%Qc l)
  end.

(** [AVG(e)] over non-null numerics: null on no input row, no division
    is attempted there. *)
Definition avg (l : list Qc) : option Qc :=
  match l with
  | [] => None
  | _ => Some (foldr Qcplus 0%Qc l / Qc_of_Z (Z.of_nat (length l)))%Qc
  end.

(** [MIN(e)] over non-null timestamps: null on no input row. *)
Definition min (l : list Z) : option Z :=
  foldr (λ x acc, Some (match acc with Some m => Z.min x m | None => x end))
        None l.

(** [a - b] on nullable numerics. *)
Definition sub (a b : option Qc) : option Qc :=
  match a, b with
  | Some x, Some y => Some (x - y)%Qc
  | _, _ => None
  end.

(** [a * c] with a non-null constant. *)
Definition scale (a : option Qc) (c : Qc) : option Qc :=
  (λ x, (x * c)%Qc) <$> a.

(** [GROUP BY key]: one group per distinct key, nulls grouped together. *)
Definition group_by {A K} `{EqDecision K} (key : A → K) (rows : list A)
  : list (K * list A) :=
  (λ k, (k, filter (λ r, key r = k) rows)) <$> remove_dups (key <$> rows).

(** [l LEFT JOIN r ON on]: every left row with each matching right row,
    or once with nulls when none matches. *)
Definition left_join {A B} (on : A → B → Prop) `{∀ a b, Decision (on a b)}
    (l : list A) (r : list B) : list (A * option B) :=
  l ≫= λ a,
    match filter (on a) r with
    | [] => [(a, None)]
    | ms => (λ b, (a, Some b)) <$> ms
    end.

(** ASCII case folding, as ILIKE applies it to pattern and text. *)
Definition lower_ascii (c : ascii) : ascii :=
  let n := nat_of_ascii c in
  if (65 <=? n)%nat && (n <=? 90)%nat then ascii_of_nat (n + 32) else c.

Fixpoint lower (s : string) : string :=
  match s with
  | EmptyString => EmptyString
  | String c s' => String (lower_ascii c) (lower s')
  end.

Fixpoint starts_with (p s : string) : bool :=
  match p, s with
  | EmptyString, _ => true
  | String a p', String b s' =>
      if decide (a = b) then starts_with p' s' else false
  | String _ _, EmptyString => false
  end.

Fixpoint contains (p s : string) : bool :=
  starts_with p s ||
  match s with
  | EmptyString => false
  | String _ s' => contains p s'
  end.

(** [text ILIKE '%marker%'] for a marker without wildcard characters: true
    when the text is non-null and has the marker as a substring, letters
    compared without regard to case. *)
Definition ilike_contains (text : option string) (marker : string) : bool :=
  match text with
  | None => false
  | Some s => contains (lower marker) (lower s)
  end.

End Sql.

(** ** Dates and timestamps *)

(** [DATE(ts)]: the day a timestamp falls on. *)
Definition date_of (ts : Z) : Z := ts `div` 86400.

(** A date parameter compared with a timestamp: midnight of that day. *)
Definition midnight (d : Z) : Z := d * 86400.

(** [ts BETWEEN :start_date AND :end_date]. *)
Definition ts_between (start_date end_date ts : Z) : Prop :=
  midnight start_date ≤ ts ∧ ts ≤ midnight end_date.

(** [DATE(ts) BETWEEN :start_date AND :end_date]. *)
Definition date_between (start_date end_date ts : Z) : Prop :=
  start_date ≤ date_of ts ∧ date_of ts ≤ end_date.

#[global] Instance ts_between_dec s e ts : Decision (ts_between s e ts).
Proof. unfold ts_between; apply _. Defined.

#[global] Instance date_between_dec s e ts : Decision (date_between s e ts).
Proof. unfold date_between; apply _. Defined.

(** ** The tables *)

Record transaction := {
  t_id : Z;
  t_tx_type : string;
  t_metadata : option string;
  t_amount : Qc;
  t_usd_amount : Qc;
  t_updated_at : Z;
  t_status : string;
  t_provider_number : option string;
  t_investment_plan_id : option Z;
  t_plan_id : option Z
}.

Record plan := {
  p_user_id : option Z;
  p_plan_option : option string
}.

Record investment_plan := {
  ip_user_id : option Z;
  ip_plan_option : option string;
  ip_asset_id : option Z
}.

Record user := {
  u_restricted : option bool
}.

Record asset := {
  a_name : option string
}.

Record database := {
  transactions : list transaction;
  investment_plans : gmap Z investment_plan;
  plans : gmap Z plan;
  users : gmap Z user;
  assets : gmap Z asset
}.

(** ** The FROM clause shared by the queries *)

(** [LEFT JOIN investment_plans ip ON ip.id = t.investment_plan_id] *)
Definition join_ip (db : database) (t : transaction) : option investment_plan :=
  t_investment_plan_id t ≫= λ i, investment_plans db !! i.

(** [LEFT JOIN plans p ON p.id = t.plan_id] *)
Definition join_p (db : database) (t : transaction) : option plan :=
  t_plan_id t ≫= λ i, plans db !! i.

(** [COALESCE(p.user_id, ip.user_id)] *)
Definition owner (db : database) (t : transaction) : option Z :=
  Sql.coalesce (join_p db t ≫= p_user_id) (join_ip db t ≫= ip_user_id).

(** [LEFT JOIN users u ON u.id = COALESCE(p.user_id, ip.user_id)];
    the row is paired with its key [u.id]. *)
Definition join_u (db : database) (t : transaction) : option (Z * user) :=
  owner db t ≫= λ i, (λ u, (i, u)) <$> users db !! i.

(** [LEFT JOIN assets a ON a.id = ip.asset_id] *)
Definition join_a (db : database) (t : transaction) : option asset :=
  join_ip db t ≫= λ ip, ip_asset_id ip ≫= λ i, assets db !! i.

(** The maintenance-fee marker searched in [t.metadata::text]. *)
Definition maintenance_marker : string := "Monthly maintenance fee deduction".

(** [CASE WHEN t.metadata::text ILIKE '%Monthly maintenance fee deduction%'
          THEN 'maintenance_fee' ELSE t.tx_type END] *)
Definition effective_type (t : transaction) : string :=
  if Sql.ilike_contains (t_metadata t) maintenance_marker
  then "maintenance_fee"
  else t_tx_type t.

(** [CASE WHEN t.investment_plan_id IS NOT NULL THEN a.name
          WHEN t.plan_id IS NOT NULL THEN p.plan_option
          ELSE NULL END] *)
Definition asset_label (db : database) (t : transaction) : option string :=
  match t_investment_plan_id t with
  | Some _ => join_a db t ≫= a_name
  | None =>
      match t_plan_id t with
      | Some _ => join_p db t ≫= p_plan_option
      | None => None
      end
  end.

(** [t.status = 'success' AND u.restricted = 'false'
     AND t.provider_number != 'Flex Dollar'] *)
Definition qualifies (db : database) (t : transaction) : Prop :=
  t_status t = "success"
  ∧ Sql.eq (join_u db t ≫= λ u, u_restricted u.2) (Some false)
  ∧ Sql.ne (t_provider_number t) (Some "Flex Dollar").

#[global] Instance qualifies_dec db t : Decision (qualifies db t).
Proof. unfold qualifies; apply _. Defined.

(** ** The CTEs of load_general_metrics and load_asset_metrics *)

(** [first_transactions]: one row per owner. *)
Record first_transaction := {
  ft_user_id : option Z;
  ft_first_transaction_date : option Z
}.

Definition first_transactions (db : database) : list first_transaction :=
  (λ g, {| ft_user_id := g.1;
           ft_first_transaction_date := Sql.min (t_updated_at <$> g.2) |})
  <$> Sql.group_by (owner db)
        (filter (λ t, t_status t = "success") (transactions db)).

(** The columns of [base_data] that the aggregates read. *)
Record base_row := {
  transaction_id : Z;
  transaction_type : string;
  asset_type : option string;
  customer_id : option Z;
  first_transaction_date : option Z;
  transaction_date : Z;
  ghs_amount : Qc;
  usd_amount : Qc
}.

(** [... LEFT JOIN first_transactions ft ON ft.user_id = u.id] *)
Definition on_ft (db : database) (t : transaction) (f : first_transaction)
  : Prop :=
  Sql.eq (ft_user_id f) (fst <$> join_u db t).

#[global] Instance on_ft_dec db t f : Decision (on_ft db t f).
Proof. unfold on_ft; apply _. Defined.

Definition base_select (db : database)
    (r : transaction * option first_transaction) : base_row :=
  {| transaction_id := t_id r.1;
     transaction_type := effective_type r.1;
     asset_type := asset_label db r.1;
     customer_id := fst <$> join_u db r.1;
     first_transaction_date := r.2 ≫= ft_first_transaction_date;
     transaction_date := t_updated_at r.1;
     ghs_amount := t_amount r.1;
     usd_amount := t_usd_amount r.1 |}.

Definition base_data (db : database) : list base_row :=
  base_select db
  <$> filter (λ r, qualifies db r.1)
        (Sql.left_join (on_ft db) (transactions db) (first_transactions db)).

(** [SELECT * FROM base_data WHERE transaction_type = 'deposit'] *)
Definition deposits (db : database) : list base_row :=
  filter (λ b, transaction_type b = "deposit") (base_data db).

(** [SELECT * FROM base_data WHERE transaction_type = 'withdrawal'] *)
Definition withdrawals (db : database) : list base_row :=
  filter (λ b, transaction_type b = "withdrawal") (base_data db).

(** [transaction_date BETWEEN :start_date AND :end_date] *)
Definition in_window (start_date end_date : Z) (b : base_row) : Prop :=
  ts_between start_date end_date (transaction_date b).

#[global] Instance in_window_dec s e b : Decision (in_window s e b).
Proof. unfold in_window; apply _. Defined.

(** ** The select list shared by the two metric queries

    Both queries aggregate [base_data LEFT JOIN depositors_summary ds];
    after the join the columns of [ds] are nullable. *)

Record joined_row := {
  bd : base_row;
  j_customer_id : option Z;          (* ds.customer_id *)
  j_first_deposit_date : option Z;   (* ds.first_deposit_date *)
  j_tx_days : option nat             (* ds.tx_days *)
}.

(** [FILTER (WHERE transaction_type = ty)] *)
Definition type_is (ty : string) (r : joined_row) : Prop :=
  transaction_type (bd r) = ty.

(** [FILTER (WHERE tx_days > 1)] *)
Definition recurring_filter (r : joined_row) : Prop :=
  match j_tx_days r with
  | Some n => (1 < n)%nat
  | None => False
  end.

(** [FILTER (WHERE tx_days = 1
       AND DATE(first_deposit_date) BETWEEN :start_date AND :end_date)] *)
Definition new_filter (start_date end_date : Z) (r : joined_row) : Prop :=
  match j_tx_days r, j_first_deposit_date r with
  | Some n, Some f => n = 1%nat ∧ date_between start_date end_date f
  | _, _ => False
  end.

#[global] Instance type_is_dec ty r : Decision (type_is ty r).
Proof. unfold type_is; apply _. Defined.

#[global] Instance recurring_filter_dec r : Decision (recurring_filter r).
Proof. unfold recurring_filter; destruct (j_tx_days r); apply _. Defined.

#[global] Instance new_filter_dec s e r : Decision (new_filter s e r).
Proof.
  unfold new_filter; destruct (j_tx_days r), (j_first_deposit_date r); apply _.
Defined.

(** The customers behind the three DISTINCT depositor counts. *)
Definition total_depositor_ids (rows : list joined_row) : list Z :=
  Sql.distinct ((λ r, customer_id (bd r)) <$> filter (type_is "deposit") rows).

Definition recurring_depositor_ids (rows : list joined_row) : list Z :=
  Sql.distinct (j_customer_id <$> filter recurring_filter rows).

Definition new_depositor_ids (start_date end_date : Z)
    (rows : list joined_row) : list Z :=
  Sql.distinct (j_customer_id <$> filter (new_filter start_date end_date) rows).

(** [SUM(col) FILTER (WHERE transaction_type = ty)] and its AVG. *)
Definition sum_of (col : base_row → Qc) (ty : string)
    (rows : list joined_row) : option Qc :=
  Sql.sum ((λ r, col (bd r)) <$> filter (type_is ty) rows).

Definition avg_of (col : base_row → Qc) (ty : string)
    (rows : list joined_row) : option Qc :=
  Sql.avg ((λ r, col (bd r)) <$> filter (type_is ty) rows).

(** [SUM(col) FILTER (WHERE transaction_type = 'deposit') -
     COALESCE(SUM(col) FILTER (WHERE transaction_type = 'withdrawal'), 0)] *)
Definition aum_of (col : base_row → Qc) (rows : list joined_row) : option Qc :=
  Sql.sub (sum_of col "deposit" rows)
          (Some (Sql.coalesce0 (sum_of col "withdrawal" rows) 0%Qc)).

Record metrics := {
  deposit_count : nat;
  deposit_value_ghs : option Qc;
  deposit_value_usd : option Qc;
  withdrawal_count : nat;
  withdrawal_value_ghs : option Qc;
  withdrawal_value_usd : option Qc;
  aum_ghs : option Qc;
  aum_usd : option Qc;
  total_depositors : nat;
  recurring_depositors : nat;
  new_depositors : nat;
  avg_deposit_value_ghs : option Qc;
  avg_deposit_value_usd : option Qc;
  avg_withdrawal_value_ghs : option Qc;
  avg_withdrawal_value_usd : option Qc
}.

Definition select_metrics (start_date end_date : Z)
    (rows : list joined_row) : metrics :=
  {| deposit_count := Sql.count (filter (type_is "deposit") rows);
     deposit_value_ghs := sum_of ghs_amount "deposit" rows;
     deposit_value_usd := sum_of usd_amount "deposit" rows;
     withdrawal_count := Sql.count (filter (type_is "withdrawal") rows);
     withdrawal_value_ghs := sum_of ghs_amount "withdrawal" rows;
     withdrawal_value_usd := sum_of usd_amount "withdrawal" rows;
     aum_ghs := aum_of ghs_amount rows;
     aum_usd := aum_of usd_amount rows;
     total_depositors := length (total_depositor_ids rows);
     recurring_depositors := length (recurring_depositor_ids rows);
     new_depositors := length (new_depositor_ids start_date end_date rows);
     avg_deposit_value_ghs := avg_of ghs_amount "deposit" rows;
     avg_deposit_value_usd := avg_of usd_amount "deposit" rows;
     avg_withdrawal_value_ghs := avg_of ghs_amount "withdrawal" rows;
     avg_withdrawal_value_usd := avg_of usd_amount "withdrawal" rows |}.

(** ** load_general_metrics *)

Module General.

(** [depositors_summary]: deposits grouped by customer, no window bound. *)
Record depositor_summary := {
  ds_customer_id : option Z;
  ds_deposit_count : nat;
  ds_first_deposit_date : option Z;
  ds_tx_days : nat
}.

Definition depositors_summary (db : database) : list depositor_summary :=
  (λ g, {| ds_customer_id := g.1;
           ds_deposit_count := Sql.count g.2;
           ds_first_deposit_date := Sql.min (transaction_date <$> g.2);
           ds_tx_days := length (remove_dups (transaction_date <$> g.2)) |})
  <$> Sql.group_by customer_id (deposits db).

(** [LEFT JOIN depositors_summary ds USING (customer_id)] *)
Definition using_customer_id (b : base_row) (d : depositor_summary) : Prop :=
  Sql.eq (customer_id b) (ds_customer_id d).

#[global] Instance using_customer_id_dec b d : Decision (using_customer_id b d).
Proof. unfold using_customer_id; apply _. Defined.

Definition project (r : base_row * option depositor_summary) : joined_row :=
  {| bd := r.1;
     j_customer_id := r.2 ≫= ds_customer_id;
     j_first_deposit_date := r.2 ≫= ds_first_deposit_date;
     j_tx_days := ds_tx_days <$> r.2 |}.

(** [FROM base_data LEFT JOIN depositors_summary ds USING (customer_id)
     WHERE transaction_date BETWEEN :start_date AND :end_date] *)
Definition rows (db : database) (start_date end_date : Z) : list joined_row :=
  filter (λ r, in_window start_date end_date (bd r))
    (project
     <$> Sql.left_join using_customer_id (base_data db) (depositors_summary db)).

Record general_metrics := {
  asset_type_count : nat;
  total_withdrawers : nat;
  common : metrics
}.

(** The customers behind [total_withdrawers]. *)
Definition total_withdrawer_ids (rs : list joined_row) : list Z :=
  Sql.distinct ((λ r, customer_id (bd r)) <$> filter (type_is "withdrawal") rs).

(** The query has no GROUP BY: it returns exactly one row. *)
Definition load_general_metrics (db : database) (start_date end_date : Z)
  : general_metrics :=
  let rs := rows db start_date end_date in
  {| asset_type_count := Sql.count_distinct ((λ r, asset_type (bd r)) <$> rs);
     total_withdrawers := length (total_withdrawer_ids rs);
     common := select_metrics start_date end_date rs |}.

End General.

(** ** fmt and fmt_int

    The renderings of a present value ([f"{val:,.2f}"] and
    [f"{int(val):,}"]) belong to Python's number formatting and are taken
    as given; an absent value is shown as zero. *)

Definition fmt (render : Qc → string) (val : option Qc) : string :=
  match val with
  | Some v => render v
  | None => "0.00"
  end.

Definition fmt_int (render : Z → string) (val : option Z) : string :=
  match val with
  | Some v => render v
  | None => "0"
  end.

(** ** load_asset_metrics *)

Module Asset.

(** [depositors_summary]: deposits grouped by customer and asset type,
    no window bound. *)
Record depositor_summary := {
  ds_customer_id : option Z;
  ds_asset_type : option string;
  ds_deposit_count : nat;
  ds_first_deposit_date : option Z;
  ds_tx_days : nat
}.

Definition depositors_summary (db : database) : list depositor_summary :=
  (λ g, {| ds_customer_id := g.1.1;
           ds_asset_type := g.1.2;
           ds_deposit_count := Sql.count g.2;
           ds_first_deposit_date := Sql.min (transaction_date <$> g.2);
           ds_tx_days := length (remove_dups (transaction_date <$> g.2)) |})
  <$> Sql.group_by (λ b, (customer_id b, asset_type b)) (deposits db).

(** [LEFT JOIN depositors_summary ds
       ON ds.customer_id = bd.customer_id AND ds.asset_type = bd.asset_type] *)
Definition on_ds (b : base_row) (d : depositor_summary) : Prop :=
  Sql.eq (ds_customer_id d) (customer_id b)
  ∧ Sql.eq (ds_asset_type d) (asset_type b).

#[global] Instance on_ds_dec b d : Decision (on_ds b d).
Proof. unfold on_ds; apply _. Defined.

Definition project (r : base_row * option depositor_summary) : joined_row :=
  {| bd := r.1;
     j_customer_id := r.2 ≫= ds_customer_id;
     j_first_deposit_date := r.2 ≫= ds_first_deposit_date;
     j_tx_days := ds_tx_days <$> r.2 |}.

(** [FROM base_data bd LEFT JOIN depositors_summary ds ON ...
     WHERE transaction_date BETWEEN :start_date AND :end_date] *)
Definition rows (db : database) (start_date end_date : Z) : list joined_row :=
  filter (λ r, in_window start_date end_date (bd r))
    (project
     <$> Sql.left_join on_ds (base_data db) (depositors_summary db)).

(** The fee schedule: the CASE on [bd.asset_type], first match wins,
    [ELSE 0]. *)
Definition estimated_revenue_of (label : option string)
    (rs : list joined_row) : Qc :=
  let dep_ghs := Sql.coalesce0 (sum_of ghs_amount "deposit" rs) 0%Qc in
  let wd_ghs := Sql.coalesce0 (sum_of ghs_amount "withdrawal" rs) 0%Qc in
  let dep_usd := Sql.coalesce0 (sum_of usd_amount "deposit" rs) 0%Qc in
  if decide (Sql.eq label (Some "Arbitrage"))
  then (Q2Qc (1 # 100) * (dep_ghs + wd_ghs))%Qc
  else if decide (Sql.eq label (Some "flex dollar savings"))
  then (Q2Qc (475 # 10000) / Q2Qc 12 * dep_usd)%Qc
  else if decide (Sql.eq label (Some "Ladder Lock"))
  then (Q2Qc (6 # 100) / Q2Qc 12 * dep_usd)%Qc
  else if decide (Sql.eq label (Some "goal savings"))
  then (Q2Qc (6 # 100) / Q2Qc 12 * dep_usd)%Qc
  else if decide (Sql.eq label (Some "Risevest fixed income"))
  then (Q2Qc (2 # 100) / Q2Qc 12 * dep_usd)%Qc
  else if decide (Sql.eq label (Some "Risevest real estate"))
  then (Q2Qc (4 # 100) / Q2Qc 12 * dep_usd)%Qc
  else if decide (Sql.eq label (Some "Equity"))
  then (Q2Qc (2 # 100) * dep_ghs)%Qc
  else if decide (Sql.eq label (Some "Mutual funds"))
  then (Q2Qc (2 # 100) * dep_ghs)%Qc
  else if decide (Sql.eq label (Some "ETFs"))
  then (Q2Qc (2 # 100) * dep_usd)%Qc
  else 0%Qc.

(** The labels the fee schedule names. *)
Definition fee_table_labels : list string :=
  [ "Arbitrage"; "flex dollar savings"; "Ladder Lock"; "goal savings";
    "Risevest fixed income"; "Risevest real estate"; "Equity";
    "Mutual funds"; "ETFs" ].

Record asset_metrics := {
  am_asset_type : option string;
  am_metrics : metrics;
  estimated_revenue : Qc;
  maintenance_fees_ghs : option Qc;
  early_withdrawal_fees_usd : option Qc
}.

(** One output row of [GROUP BY bd.asset_type]. *)
Definition select_group (start_date end_date : Z)
    (g : option string * list joined_row) : asset_metrics :=
  {| am_asset_type := g.1;
     am_metrics := select_metrics start_date end_date g.2;
     estimated_revenue := estimated_revenue_of g.1 g.2;
     maintenance_fees_ghs := sum_of ghs_amount "maintenance_fee" g.2;
     early_withdrawal_fees_usd :=
       Sql.scale (sum_of usd_amount "early_withdrawal" g.2)
                 (Q2Qc (25 # 1000)) |}.

(** The groups of [GROUP BY bd.asset_type]. *)
Definition groups (db : database) (start_date end_date : Z)
  : list (option string * list joined_row) :=
  Sql.group_by (λ r, asset_type (bd r)) (rows db start_date end_date).

(** The [asset_metrics] CTE. *)
Definition asset_metrics_cte (db : database) (start_date end_date : Z)
  : list asset_metrics :=
  select_group start_date end_date <$> groups db start_date end_date.

(** [ORDER BY deposit_value_usd DESC NULLS LAST] *)
Definition usd_desc_nulls_last (x y : asset_metrics) : Prop :=
  match deposit_value_usd (am_metrics x), deposit_value_usd (am_metrics y) with
  | Some a, Some b => (b ≤ a)%Qc
  | Some _, None => True
  | None, Some _ => False
  | None, None => True
  end.

#[global] Instance usd_desc_nulls_last_dec x y :
  Decision (usd_desc_nulls_last x y).
Proof.
  unfold usd_desc_nulls_last.
  destruct (deposit_value_usd (am_metrics x)),
           (deposit_value_usd (am_metrics y)); apply _.
Defined.

Definition load_asset_metrics (db : database) (start_date end_date : Z)
  : list asset_metrics :=
  merge_sort usd_desc_nulls_last (asset_metrics_cte db start_date end_date).

(** The Asset Breakdown page:
    [asset_df[asset_df['asset_type'] == selected_asset_type]] *)
Definition asset_row (asset_df : list asset_metrics)
    (selected_asset_type : option string) : list asset_metrics :=
  filter (λ r, Sql.eq (am_asset_type r) selected_asset_type) asset_df.

End Asset.

(** ** get_asset_types *)

(** [ORDER BY asset_type]: ascending, nulls last. *)
Definition label_asc (x y : option string) : Prop :=
  match x, y with
  | Some a, Some b => String.leb a b
  | Some _, None => True
  | None, Some _ => False
  | None, None => True
  end.

#[global] Instance label_asc_dec x y : Decision (label_asc x y).
Proof. unfold label_asc; destruct x, y; apply _. Defined.

(** [WHERE t.status = 'success'
      AND t.updated_at BETWEEN :start_date AND :end_date
      AND CASE ... END IS NOT NULL] *)
Definition listed (db : database) (start_date end_date : Z)
    (t : transaction) : Prop :=
  t_status t = "success"
  ∧ ts_between start_date end_date (t_updated_at t)
  ∧ is_Some (asset_label db t).

#[global] Instance listed_dec db s e t : Decision (listed db s e t).
Proof. unfold listed; apply _. Defined.

(** [SELECT DISTINCT CASE ... END AS asset_type ... ORDER BY asset_type],
    then [df["asset_type"].tolist()]. *)
Definition get_asset_types (db : database) (start_date end_date : Z)
  : list (option string) :=
  merge_sort label_asc
    (remove_dups
       (asset_label db <$> filter (listed db start_date end_date)
                             (transactions db))).

(** ** load_transaction_trend *)

Module Trend.

Inductive granularity := Day | Week | Month.

(** Day of the month of a day number counted from 1970-01-01
    (proleptic Gregorian calendar). *)
Definition day_of_month (d : Z) : Z :=
  let z := d + 719468 in
  let era := z `div` 146097 in
  let doe := z - era * 146097 in
  let yoe :=
    (doe - doe `div` 1460 + doe `div` 36524 - doe `div` 146096) `div` 365 in
  let doy := doe - (365 * yoe + yoe `div` 4 - yoe `div` 100) in
  let mp := (5 * doy + 2) `div` 153 in
  doy - (153 * mp + 2) `div` 5 + 1.

(** [DATE_TRUNC(:granularity, ts)]: midnight of the day, of the Monday of
    the week, of the first day of the month. *)
Definition date_trunc (g : granularity) (ts : Z) : Z :=
  let d := date_of ts in
  match g with
  | Day => midnight d
  | Week => midnight (d - (d + 3) `mod` 7)
  | Month => midnight (d - (day_of_month d - 1))
  end.

Record trend_point := {
  period : Z;
  tx_type : string;
  total_amount : option Qc
}.

(** [WHERE t.status = 'success' AND u.restricted = false
      AND t.provider_number != 'Flex Dollar'
      AND t.updated_at BETWEEN :start_date AND :end_date] *)
Definition selected (db : database) (start_date end_date : Z)
    (t : transaction) : Prop :=
  qualifies db t ∧ ts_between start_date end_date (t_updated_at t).

#[global] Instance selected_dec db s e t : Decision (selected db s e t).
Proof. unfold selected; apply _. Defined.

(** [GROUP BY period, t.tx_type] *)
Definition groups (db : database) (start_date end_date : Z) (g : granularity)
  : list ((Z * string) * list transaction) :=
  Sql.group_by (λ t, (date_trunc g (t_updated_at t), t_tx_type t))
    (filter (selected db start_date end_date) (transactions db)).

(** [ORDER BY period ASC] *)
Definition period_asc (x y : trend_point) : Prop := period x ≤ period y.

#[global] Instance period_asc_dec x y : Decision (period_asc x y).
Proof. unfold period_asc; apply _. Defined.

(** [SELECT DATE_TRUNC(:granularity, t.updated_at) AS period, t.tx_type,
            SUM(t.amount) AS total_amount ... ORDER BY period ASC] *)
Definition load_transaction_trend (db : database) (start_date end_date : Z)
    (g : granularity) : list trend_point :=
  merge_sort period_asc
    ((λ grp, {| period := grp.1.1;
                tx_type := grp.1.2;
                total_amount := Sql.sum (t_amount <$> grp.2) |})
     <$> groups db start_date end_date g).

End Trend.

(** ** Reference quantities, stated on the transactions table

    These follow the wording of the specification and are compared with
    what the queries compute. *)

(** The transactions a windowed figure of one effective type ranges over. *)
Definition counted (db : database) (start_date end_date : Z) (ty : string)
  : list transaction :=
  filter (λ t, qualifies db t
               ∧ ts_between start_date end_date (t_updated_at t)
               ∧ effective_type t = ty)
    (transactions db).

(** The same, inside one asset-type group. *)
Definition counted_in (db : database) (start_date end_date : Z)
    (label : option string) (ty : string) : list transaction :=
  filter (λ t, asset_label db t = label) (counted db start_date end_date ty).

(** All qualifying deposits of a customer, with no window bound. *)
Definition all_deposits (db : database) (c : Z) : list transaction :=
  filter (λ t, qualifies db t
               ∧ effective_type t = "deposit"
               ∧ owner db t = Some c)
    (transactions db).

(** All qualifying deposits of a customer under one asset-type label. *)
Definition all_deposits_in (db : database) (c : Z) (label : option string)
  : list transaction :=
  filter (λ t, asset_label db t = label) (all_deposits db c).

(** Distinct timestamps of a list of transactions. *)
Definition distinct_timestamps (l : list transaction) : nat :=
  length (remove_dups (t_updated_at <$> l)).

(** The wording of the specification: distinct deposit timestamps of a
    customer inside the window. *)
Definition spec_tx_days_in_window (db : database) (start_date end_date c : Z)
  : nat :=
  distinct_timestamps
    (filter (λ t, ts_between start_date end_date (t_updated_at t))
       (all_deposits db c)).

(** The wording of the specification: the earliest qualifying transaction
    of a customer. *)
Definition spec_first_transaction_date (db : database) (c : Z) : option Z :=
  Sql.min (t_updated_at <$>
           filter (λ t, qualifies db t ∧ owner db t = Some c)
             (transactions db)).

(** Two bytes are the same letter up to case: they are equal, or one is a
    capital A to Z (codes 65 to 90) and the other its small letter, 32
    above. *)
Definition same_letter (a b : ascii) : Prop :=
  a = b
  ∨ ((65 ≤ nat_of_ascii a ≤ 90)%nat
     ∧ nat_of_ascii b = (nat_of_ascii a + 32)%nat)
  ∨ ((65 ≤ nat_of_ascii b ≤ 90)%nat
     ∧ nat_of_ascii a = (nat_of_ascii b + 32)%nat).

(** Two texts of the same length, the same letter by letter up to case. *)
Fixpoint same_text (p s : string) : Prop :=
  match p, s with
  | EmptyString, EmptyString => True
  | String a p', String b s' => same_letter a b ∧ same_text p' s'
  | _, _ => False
  end.

(** The wording of the specification: the metadata text contains the
    marker as a case-insensitive substring. *)
Definition has_marker (t : transaction) : Prop :=
  ∃ s pre occurrence post,
    t_metadata t = Some s
    ∧ s = pre +:+ occurrence +:+ post
    ∧ same_text "Monthly maintenance fee deduction" occurrence.

(** Replacing the [first_transaction_date] column of a joined row. *)
Definition with_first_transaction_date (v : option Z) (r : joined_row)
  : joined_row :=
  {| bd := {| transaction_id := transaction_id (bd r);
              transaction_type := transaction_type (bd r);
              asset_type := asset_type (bd r);
              customer_id := customer_id (bd r);
              first_transaction_date := v;
              transaction_date := transaction_date (bd r);
              ghs_amount := ghs_amount (bd r);
              usd_amount := usd_amount (bd r) |};
     j_customer_id := j_customer_id r;
     j_first_deposit_date := j_first_deposit_date r;
     j_tx_days := j_tx_days r |}.

(** ** Sample databases *)

Module Samples.

Definition tx (id : Z) (ty : string) (md : option string) (amt usd ts : Z)
    (prov : string) (ipid pid : option Z) : transaction :=
  {| t_id := id; t_tx_type := ty; t_metadata := md;
     t_amount := Qc_of_Z amt; t_usd_amount := Qc_of_Z usd;
     t_updated_at := ts; t_status := "success";
     t_provider_number := Some prov;
     t_investment_plan_id := ipid; t_plan_id := pid |}.

(** One customer (id 1) owning plan 10, labelled "goal savings". *)
Definition one_customer (txs : list transaction) : database :=
  {| transactions := txs;
     investment_plans := ∅;
     plans := {[ 10 := {| p_user_id := Some 1;
                          p_plan_option := Some "goal savings" |} ]};
     users := {[ 1 := {| u_restricted := Some false |} ]};
     assets := ∅ |}.

(** Two deposits, the first before the window of days 35 to 45. *)
Definition early_and_late : database :=
  one_customer
    [ tx 1 "deposit" None 100 10 (1 * 86400 + 3600) "MTN" None (Some 10);
      tx 2 "deposit" None 50 5 (40 * 86400) "MTN" None (Some 10) ].

(** The earliest successful transaction came through the excluded
    provider. *)
Definition excluded_first : database :=
  one_customer
    [ tx 1 "deposit" None 100 10 100 "Flex Dollar" None (Some 10);
      tx 2 "deposit" None 50 5 500 "MTN" None (Some 10) ].

(** Two deposits before the window of days 35 to 45, one withdrawal
    inside it. *)
Definition old_depositor : database :=
  one_customer
    [ tx 1 "deposit" None 100 10 (1 * 86400) "MTN" None (Some 10);
      tx 2 "deposit" None 50 5 (2 * 86400) "MTN" None (Some 10);
      tx 3 "withdrawal" None 30 3 (40 * 86400) "MTN" None (Some 10) ].

(** One withdrawal inside the window of days 35 to 45, and the only
    deposit on its last day, after midnight. *)
Definition last_day_deposit : database :=
  one_customer
    [ tx 1 "withdrawal" None 30 3 (40 * 86400) "MTN" None (Some 10);
      tx 2 "deposit" None 100 10 (45 * 86400 + 36000) "MTN" None (Some 10) ].

(** An investment plan (id 20) of customer 1 with no asset assigned. *)
Definition unassigned_asset : database :=
  {| transactions :=
       [ tx 1 "deposit" None 100 10 (3 * 86400) "MTN" (Some 20) None ];
     investment_plans :=
       {[ 20 := {| ip_user_id := Some 1; ip_plan_option := None;
                   ip_asset_id := None |} ]};
     plans := ∅;
     users := {[ 1 := {| u_restricted := Some false |} ]};
     assets := ∅ |}.

(** A fee deduction recorded with raw type withdrawal. *)
Definition fee_deduction : transaction :=
  tx 1 "withdrawal" (Some "Monthly Maintenance Fee deduction for March")
     5 1 (3 * 86400 + 7200) "MTN" None (Some 10).

Definition with_fee : database := one_customer [ fee_deduction ].

(** A withdrawal whose metadata only resembles the marker. *)
Definition plain_withdrawal : transaction :=
  tx 2 "withdrawal" (Some "Monthly maintenance fee refund")
     30 3 (4 * 86400) "MTN" None (Some 10).

(** A fee deduction recorded in capitals. *)
Definition fee_in_capitals : transaction :=
  tx 3 "withdrawal" (Some "MONTHLY MAINTENANCE FEE DEDUCTION")
     7 1 (5 * 86400) "MTN" None (Some 10).

Definition fees_and_withdrawal : database :=
  one_customer [ fee_deduction; plain_withdrawal; fee_in_capitals ].

(** An asset type the fee schedule does not name. *)
Definition unlisted_asset : database :=
  {| transactions :=
       [ tx 1 "deposit" None 100 10 (3 * 86400) "MTN" (Some 20) None ];
     investment_plans :=
       {[ 20 := {| ip_user_id := Some 1; ip_plan_option := None;
                   ip_asset_id := Some 30 |} ]};
     plans := ∅;
     users := {[ 1 := {| u_restricted := Some false |} ]};
     assets := {[ 30 := {| a_name := Some "Treasury bills" |} ]} |}.

(** The only customer is restricted. *)
Definition restricted_only : database :=
  {| transactions :=
       [ tx 1 "deposit" None 100 10 (3 * 86400) "MTN" None (Some 10) ];
     investment_plans := ∅;
     plans := {[ 10 := {| p_user_id := Some 1;
                          p_plan_option := Some "goal savings" |} ]};
     users := {[ 1 := {| u_restricted := Some true |} ]};
     assets := ∅ |}.

End Samples.

(** ** The joins, row by row

    Each right-hand side of the LEFT JOINs on a CTE has at most one row per
    join key, so a joined row is its left row with a looked-up partner. *)

(** The [first_transactions] row joined to a transaction. *)
Definition first_transaction_of (db : database) (t : transaction)
  : option first_transaction :=
  (Some <$> (fst <$> join_u db t)) ≫= λ k,
    head (filter (λ f, ft_user_id f = k) (first_transactions db)).

(** The [base_data] row of a transaction. *)
Definition base_of (db : database) (t : transaction) : base_row :=
  base_select db (t, first_transaction_of db t).

(** The [depositors_summary] row joined to a [base_data] row in
    load_general_metrics. *)
Definition general_summary_of (db : database) (b : base_row)
  : option General.depositor_summary :=
  (Some <$> customer_id b) ≫= λ k,
    head (filter (λ d, General.ds_customer_id d = k)
            (General.depositors_summary db)).

(** The join key of load_asset_metrics: both columns non-null. *)
Definition asset_join_key (b : base_row) : option (option Z * option string) :=
  match customer_id b, asset_type b with
  | Some c, Some a => Some (Some c, Some a)
  | _, _ => None
  end.

(** The [depositors_summary] row joined to a [base_data] row in
    load_asset_metrics. *)
Definition asset_summary_of (db : database) (b : base_row)
  : option Asset.depositor_summary :=
  asset_join_key b ≫= λ k,
    head (filter (λ d, (Asset.ds_customer_id d, Asset.ds_asset_type d) = k)
            (Asset.depositors_summary db)).

(** The three [ds] columns a customer's rows carry after the join, from the
    deposits the summary row was grouped from. *)
Definition summary_columns (l : list transaction) (c : Z)
  : option Z * option Z * option nat :=
  match l with
  | [] => (None, None, None)
  | _ => (Some c, Sql.min (t_updated_at <$> l), Some (distinct_timestamps l))
  end.

Definition ds_columns (r : joined_row) : option Z * option Z * option nat :=
  (j_customer_id r, j_first_deposit_date r, j_tx_days r).

(** Rows whose [ds] columns are the summary of the deposits [D c] of their
    customer [c]. *)
Definition summarised (D : Z → list transaction) (rows : list joined_row)
  : Prop :=
  ∀ r, r ∈ rows →
    ∃ c, customer_id (bd r) = Some c
         ∧ ds_columns r = summary_columns (D c) c.

(** The deposits summarised for the rows of one asset-type group; the join
    matches nothing on an absent label. *)
Definition group_deposits (db : database) (label : option string) (c : Z)
  : list transaction :=
  match label with
  | Some _ => all_deposits_in db c label
  | None => []
  end.

(** A customer has a row among [rows]. *)
Definition has_row (rows : list joined_row) (c : Z) : Prop :=
  ∃ r, r ∈ rows ∧ customer_id (bd r) = Some c.

(** The earliest of a list of deposits falls on a day of the window. *)
Definition first_in_window (start_date end_date : Z) (l : list transaction)
  : Prop :=
  ∃ f, Sql.min (t_updated_at <$> l) = Some f
       ∧ date_between start_date end_date f.

(** The figures of a window without activity: counts 0, sums, net
    positions and averages absent. *)
Definition no_activity : metrics :=
  {| deposit_count := 0;
     deposit_value_ghs := None;
     deposit_value_usd := None;
     withdrawal_count := 0;
     withdrawal_value_ghs := None;
     withdrawal_value_usd := None;
     aum_ghs := None;
     aum_usd := None;
     total_depositors := 0;
     recurring_depositors := 0;
     new_depositors := 0;
     avg_deposit_value_ghs := None;
     avg_deposit_value_usd := None;
     avg_withdrawal_value_ghs := None;
     avg_withdrawal_value_usd := None |}.

(** The amounts of a metrics row that the pages pass to [fmt]. *)
Definition money_fields (m : metrics) : list (option Qc) :=
  [ deposit_value_ghs m; deposit_value_usd m;
    withdrawal_value_ghs m; withdrawal_value_usd m;
    aum_ghs m; aum_usd m;
    avg_deposit_value_ghs m; avg_deposit_value_usd m;
    avg_withdrawal_value_ghs m; avg_withdrawal_value_usd m ].

(** [ORDER BY period ASC] compares any two rows. *)
#[global] Instance period_asc_total : Total Trend.period_asc.
Proof. intros x y. unfold Trend.period_asc. lia. Qed.

(** ** get_date_range

    A [date] is its day number from 1970-01-01; [timedelta(days=n)] is
    [n]. *)

Module DateRange.

(** [d.weekday()]: Monday is 0 and Sunday is 6. *)
Definition weekday (d : Z) : Z := (d + 3) `mod` 7.

(** [d.replace(day=1)] *)
Definition replace_day_1 (d : Z) : Z := d - (Trend.day_of_month d - 1).

(** [date(2022, 1, 1)] *)
Definition date_2022_01_01 : Z := 18993.

Definition get_date_range (option : string) (today : Z) : Z * Z :=
  if decide (option = "Today") then (today, today)
  else if decide (option = "Past 7 Days") then (today - 6, today)
  else if decide (option = "Last 14 Days") then (today - 13, today)
  else if decide (option = "This Week") then
    ((if decide (weekday today ≠ 6) then today - (weekday today + 1)
      else today),
     today)
  else if decide (option = "Last Week") then
    let end_ := today - (weekday today + 1) in
    (end_ - 6, end_)
  else if decide (option = "Last 30 Days") then (today - 29, today)
  else if decide (option = "Last Month") then
    let first_this_month := replace_day_1 today in
    let last_month_end := first_this_month - 1 in
    (replace_day_1 last_month_end, last_month_end)
  else if decide (option = "All Time") then (date_2022_01_01, today)
  else (today, today).

(** A check on [n] consecutive days from [d] on. *)
Fixpoint all_days (f : Z → bool) (d : Z) (n : nat) : bool :=
  match n with
  | O => true
  | S n' => f d && all_days f (d + 1) n'
  end.

(** The first of a month is a fixed point of [replace_day_1], and the
    month before it has 28 to 31 days. *)
Definition month_start_ok (today : Z) : bool :=
  let first_this_month := replace_day_1 today in
  let last_month_start := replace_day_1 (first_this_month - 1) in
  (Trend.day_of_month first_this_month =? 1)
  && (Trend.day_of_month last_month_start =? 1)
  && (28 <=? first_this_month - last_month_start)
  && (first_this_month - last_month_start <=? 31).

End DateRange.

(** ** LIKE patterns with the one-character wildcard *)

Module Like.

(** A byte [10xxxxxx]: inside a UTF-8 character, never its first byte. *)
Definition continuation (b : ascii) : bool :=
  let n := nat_of_ascii b in (128 <=? n)%nat && (n <=? 191)%nat.

(** The text after the continuation bytes it starts with. *)
Fixpoint skip_continuation (s : string) : string :=
  match s with
  | EmptyString => EmptyString
  | String b s' => if continuation b then skip_continuation s' else s
  end.

(** The pattern matches a prefix of the text.  [_] matches any one
    character: the byte at hand and the continuation bytes after it, as
    the matcher of a UTF-8 database steps over a character; any other
    pattern byte matches itself. *)
Fixpoint here (p s : string) : bool :=
  match p, s with
  | EmptyString, _ => true
  | String a p', String b s' =>
      if decide (a = "_"%char) then here p' (skip_continuation s')
      else bool_decide (a = b) && here p' s'
  | String _ _, EmptyString => false
  end.

Fixpoint anywhere (p s : string) : bool :=
  here p s ||
  match s with
  | EmptyString => false
  | String _ s' => anywhere p s'
  end.

(** [text ILIKE '%pattern%'] for a pattern without [%] and backslash that
    starts with a letter. *)
Definition ilike (text : option string) (pattern : string) : bool :=
  match text with
  | None => false
  | Some s => anywhere (Sql.lower pattern) (Sql.lower s)
  end.

End Like.

(** Every byte of the text is a continuation byte. *)
Fixpoint continuation_bytes (s : string) : Prop :=
  match s with
  | EmptyString => True
  | String b s' => Like.continuation b = true ∧ continuation_bytes s'
  end.

(** Every byte of the text is below 128: the text is plain ASCII. *)
Fixpoint plain_ascii (s : string) : Prop :=
  match s with
  | EmptyString => True
  | String b s' => (nat_of_ascii b < 128)%nat ∧ plain_ascii s'
  end.

(** ** The users table as the user queries read it

    [load_user_counts] and [load_user_insights] read other columns of
    [users] than the transaction queries do; here a row carries those
    columns.  [id], [created_at] and [updated_at] are taken as NOT NULL. *)

Record user_row := {
  ur_id : Z;
  ur_created_at : Z;
  ur_updated_at : Z;
  ur_metadata : option string;
  ur_most_recent_activity : option Z;
  ur_gender : option string;
  ur_country : option string;
  ur_dob : option Z;
  ur_status : option string;
  ur_ladder_use_option : option string
}.

(** ** load_user_counts *)

Module UserCounts.

(** [WHERE DATE(created_at) BETWEEN :start_date AND :end_date] *)
Definition registered (start_date end_date : Z) (u : user_row) : Prop :=
  date_between start_date end_date (ur_created_at u).

(** [WHERE metadata::text ILIKE '%kyc_completed%'
      AND DATE(updated_at) BETWEEN :start_date AND :end_date] *)
Definition kyc (start_date end_date : Z) (u : user_row) : Prop :=
  Like.ilike (ur_metadata u) "kyc_completed" = true
  ∧ date_between start_date end_date (ur_updated_at u).

#[global] Instance registered_dec s e u : Decision (registered s e u).
Proof. unfold registered; apply _. Defined.

#[global] Instance kyc_dec s e u : Decision (kyc s e u).
Proof. unfold kyc; apply _. Defined.

(** [(reg_df.loc[0, "registered_users"], kyc_df.loc[0, "kyc_users"])] *)
Definition load_user_counts (users : list user_row)
    (start_date end_date : Z) : nat * nat :=
  (Sql.count (filter (registered start_date end_date) users),
   Sql.count (filter (kyc start_date end_date) users)).

End UserCounts.

(** ** load_user_insights

    The dates are written into the query text, ['{start_date}'], and are
    read by PostgreSQL as the other queries' parameters are.  Of
    [budgets], [manual_and_external_transactions], [investment_plans] and
    [plans] the first SELECTs read [user_id] and [created_at] only. *)

Module Insights.

Record activity := {
  act_user_id : option Z;
  act_created_at : Z
}.

Record profile := {
  pr_user_id : option Z;
  pr_employment_status : option string
}.

Record sources := {
  budgets : list activity;
  manual_and_external_transactions : list activity;
  investment_plans_created : list activity;
  plans_created : list activity
}.

(** [SELECT user_id FROM x WHERE created_at BETWEEN '{start_date}' AND
    '{end_date}'] *)
Definition created_in (start_date end_date : Z) (l : list activity)
  : list (option Z) :=
  act_user_id
  <$> filter (λ a, ts_between start_date end_date (act_created_at a)) l.

(** [SELECT DISTINCT COALESCE(p.user_id, ip.user_id) ... WHERE t.status =
    'success' AND t.updated_at BETWEEN '{start_date}' AND '{end_date}'] *)
Definition transacting (db : database) (start_date end_date : Z)
  : list (option Z) :=
  remove_dups
    (owner db
     <$> filter (λ t, t_status t = "success"
                      ∧ ts_between start_date end_date (t_updated_at t))
           (transactions db)).

(** The [active_users] CTE: UNION keeps one copy of every value. *)
Definition active_users (src : sources) (db : database)
    (start_date end_date : Z) : list (option Z) :=
  remove_dups
    (created_in start_date end_date (budgets src)
     ++ created_in start_date end_date (manual_and_external_transactions src)
     ++ created_in start_date end_date (investment_plans_created src)
     ++ created_in start_date end_date (plans_created src)
     ++ transacting db start_date end_date).

(** [DATE(most_recent_activity) BETWEEN '{start_date}' AND '{end_date}'] *)
Definition recent (start_date end_date : Z) (u : user_row) : Prop :=
  match ur_most_recent_activity u with
  | Some ts => date_between start_date end_date ts
  | None => False
  end.

#[global] Instance recent_dec s e u : Decision (recent s e u).
Proof. unfold recent; destruct (ur_most_recent_activity u); apply _. Defined.

(** The [recent_activity] CTE. *)
Definition recent_activity (users : list user_row)
    (start_date end_date : Z) : list Z :=
  ur_id <$> filter (recent start_date end_date) users.

Record insight := {
  user_id : Z;
  gender : option string;
  country : option string;
  dob : option Z;
  status : option string;
  ladder_use_option : option string;
  employment_status : option string;
  created_at : Z;
  is_recent : bool;
  is_active : bool
}.

(** [LEFT JOIN profiles p ON p.user_id = u.id] *)
Definition on_profile (u : user_row) (p : profile) : Prop :=
  Sql.eq (pr_user_id p) (Some (ur_id u)).

(** [LEFT JOIN recent_activity ra ON ra.id = u.id] *)
Definition on_recent (r : user_row * option profile) (ra : Z) : Prop :=
  ra = ur_id r.1.

(** [LEFT JOIN active_users au ON au.user_id = u.id] *)
Definition on_active (r : user_row * option profile * option Z)
    (au : option Z) : Prop :=
  Sql.eq au (Some (ur_id r.1.1)).

#[global] Instance on_profile_dec u p : Decision (on_profile u p).
Proof. unfold on_profile; apply _. Defined.

#[global] Instance on_recent_dec r ra : Decision (on_recent r ra).
Proof. unfold on_recent; apply _. Defined.

#[global] Instance on_active_dec r au : Decision (on_active r au).
Proof. unfold on_active; apply _. Defined.

Definition select
    (r : user_row * option profile * option Z * option (option Z))
  : insight :=
  let u := r.1.1.1 in
  {| user_id := ur_id u;
     gender := ur_gender u;
     country := ur_country u;
     dob := ur_dob u;
     status := ur_status u;
     ladder_use_option := ur_ladder_use_option u;
     employment_status := r.1.1.2 ≫= pr_employment_status;
     created_at := ur_created_at u;
     is_recent := bool_decide (is_Some r.1.2);
     is_active := bool_decide (is_Some r.2) |}.

(** [FROM users u LEFT JOIN profiles p ... LEFT JOIN recent_activity ra
    ... LEFT JOIN active_users au ...
    WHERE u.created_at BETWEEN '{start_date}' AND '{end_date}']

    The query has no ORDER BY: the rows may come in any order, and the
    order of this list is not part of the result. *)
Definition load_user_insights (users : list user_row)
    (profiles : list profile) (src : sources) (db : database)
    (start_date end_date : Z) : list insight :=
  select
  <$> filter (λ r, ts_between start_date end_date (ur_created_at r.1.1.1))
        (Sql.left_join on_active
           (Sql.left_join on_recent
              (Sql.left_join on_profile users profiles)
              (recent_activity users start_date end_date))
           (active_users src db start_date end_date)).

(** The three figures at the top of the User Information page:
    [len(df)], [df['is_active'].sum()], [df['is_recent'].sum()]. *)
Definition page_figures (df : list insight) : nat * nat * nat :=
  (length df,
   length (filter (λ i, is_active i = true) df),
   length (filter (λ i, is_recent i = true) df)).

End Insights.

(** ** load_total_users_by_asset_type *)

Module UsersByAsset.

Record users_by_asset := {
  uba_asset_type : option string;
  total_users : nat
}.

(** [WHERE t.status = 'success' AND u.restricted = 'false'
      AND t.provider_number != 'Flex Dollar'
      AND t.updated_at BETWEEN :start_date AND :end_date
      AND CASE ... END IS NOT NULL] *)
Definition selected (db : database) (start_date end_date : Z)
    (t : transaction) : Prop :=
  qualifies db t
  ∧ ts_between start_date end_date (t_updated_at t)
  ∧ is_Some (asset_label db t).

#[global] Instance selected_dec db s e t : Decision (selected db s e t).
Proof. unfold selected; apply _. Defined.

(** [GROUP BY asset_type] *)
Definition groups (db : database) (start_date end_date : Z)
  : list (option string * list transaction) :=
  Sql.group_by (asset_label db)
    (filter (selected db start_date end_date) (transactions db)).

(** The customers behind [COUNT(DISTINCT u.id)]. *)
Definition user_ids (db : database) (l : list transaction) : list Z :=
  Sql.distinct ((λ t, fst <$> join_u db t) <$> l).

(** [ORDER BY total_users DESC] *)
Definition users_desc (x y : users_by_asset) : Prop :=
  (total_users y ≤ total_users x)%nat.

#[global] Instance users_desc_dec x y : Decision (users_desc x y).
Proof. unfold users_desc; apply _. Defined.

#[global] Instance users_desc_total : Total users_desc.
Proof. intros x y. unfold users_desc. lia. Qed.

Definition load_total_users_by_asset_type (db : database)
    (start_date end_date : Z) : list users_by_asset :=
  merge_sort users_desc
    ((λ g, {| uba_asset_type := g.1;
              total_users := length (user_ids db g.2) |})
     <$> groups db start_date end_date).

(** The Asset Breakdown page:
    [users_by_asset_df[users_by_asset_df['asset_type']
                        == selected_asset_type]] *)
Definition users_row (users_by_asset_df : list users_by_asset)
    (selected_asset_type : option string) : list users_by_asset :=
  filter (λ r, Sql.eq (uba_asset_type r) selected_asset_type)
    users_by_asset_df.

End UsersByAsset.

(** [ORDER BY asset_type] compares any two labels. *)
#[global] Instance label_asc_total : Total label_asc.
Proof.
  intros [a|] [b|]; simpl; auto.
  destruct (String.leb_total a b) as [H|H]; rewrite H; simpl; auto.
Qed.

(** The sum of a numeric column over rows, 0 on no row. *)
Definition qsum {A} (f : A → Qc) (l : list A) : Qc :=
  foldr (λ x acc, (f x + acc)%Qc) 0%Qc l.

(** [pd.read_sql] hands the numeric value of a column on as a float64,
    and an absent value as absent.  Which float64 a numeric becomes is
    left open: [float64] stands for any conversion. *)
Definition read_value (float64 : Qc → Qc) (value : option Qc) : option Qc :=
  float64 <$> value.

(** A returned value is the total of a column over the given transactions:
    absent when there is none, the float64 of their sum otherwise. *)
Definition adds_up (float64 : Qc → Qc) (value : option Qc)
    (col : transaction → Qc) (l : list transaction) : Prop :=
  match l with
  | [] => read_value float64 value = None
  | _ => read_value float64 value = Some (float64 (qsum col l))
  end.

(** The width of a trend period in seconds (for a month, its upper
    bound). *)
Definition span (g : Trend.granularity) : Z :=
  match g with
  | Trend.Day => 86400
  | Trend.Week => 7 * 86400
  | Trend.Month => 31 * 86400
  end.

(** [ORDER BY deposit_value_usd DESC NULLS LAST] compares any two rows. *)
#[global] Instance usd_desc_nulls_last_total : Total Asset.usd_desc_nulls_last.
Proof.
  intros x y. unfold Asset.usd_desc_nulls_last.
  destruct (deposit_value_usd (Asset.am_metrics x)) as [a|],
           (deposit_value_usd (Asset.am_metrics y)) as [b|]; auto.
  destruct (total Qcle a b); auto.
Qed.

(** A user row with the given id, creation and update times and metadata,
    and nothing else recorded. *)
Definition registered_user (id created updated : Z)
    (metadata : option string) : user_row :=
  {| ur_id := id; ur_created_at := created; ur_updated_at := updated;
     ur_metadata := metadata; ur_most_recent_activity := None;
     ur_gender := None; ur_country := None; ur_dob := None;
     ur_status := None; ur_ladder_use_option := None |}.

#[global] Instance usd_desc_nulls_last_trans :
  Transitive Asset.usd_desc_nulls_last.
Proof.
  intros x y z. unfold Asset.usd_desc_nulls_last.
  destruct (deposit_value_usd (Asset.am_metrics x)) as [a|],
           (deposit_value_usd (Asset.am_metrics y)) as [b|],
           (deposit_value_usd (Asset.am_metrics z)) as [c|]; try done.
  intros Hba Hcb. by trans b.
Qed.

(** No recorded amount is negative. *)
Definition amounts_nonneg (db : database) : Prop :=
  ∀ t, t ∈ transactions db → (0 ≤ t_amount t)%Qc ∧ (0 ≤ t_usd_amount t)%Qc.

(** * Properties *)

(** ** Facts about the SQL operators *)

Section key_facts.
Context {A K : Type} `{EqDecision K}.

Lemma filter_key_absent (f : A → K) (k : K) (l : list A) :
  k ∉ f <$> l → filter (λ y, f y = k) l = [].
Proof.
  induction l as [|y l IH]; [done|].
  rewrite fmap_cons, not_elem_of_cons. intros [Hne Hl].
  rewrite filter_cons_False by congruence. auto.
Qed.

Lemma filter_key_unique (f : A → K) (x : A) (l : list A) :
  NoDup (f <$> l) → x ∈ l → filter (λ y, f y = f x) l = [x].
Proof.
  induction l as [|y l IH]; [by intros _ ?%elem_of_nil|].
  rewrite fmap_cons, NoDup_cons. intros [Hy Hl] Hx.
  apply elem_of_cons in Hx as [->|Hx].
  - rewrite filter_cons_True by done.
    by rewrite (filter_key_absent f (f y) l).
  - rewrite filter_cons_False; [auto|].
    intros Heq. apply Hy. rewrite Heq. by apply list_elem_of_fmap_2.
Qed.

End key_facts.

Section group_facts.
Context {A B K : Type} `{EqDecision K}.

Lemma group_by_keys (key : A → K) (rows : list A) :
  (Sql.group_by key rows).*1 = remove_dups (key <$> rows).
Proof.
  unfold Sql.group_by. rewrite <-list_fmap_compose.
  rewrite (list_fmap_ext _ id) by done. apply list_fmap_id.
Qed.

Lemma group_by_keys_NoDup (key : A → K) (rows : list A) :
  NoDup (Sql.group_by key rows).*1.
Proof. rewrite group_by_keys. apply NoDup_remove_dups. Qed.

Lemma elem_of_group_by (key : A → K) (rows : list A) k g :
  (k, g) ∈ Sql.group_by key rows
  ↔ k ∈ key <$> rows ∧ g = filter (λ r, key r = k) rows.
Proof.
  unfold Sql.group_by. rewrite list_elem_of_fmap. split.
  - intros (k' & Heq & Hk). simplify_eq.
    split; [by rewrite elem_of_remove_dups in Hk|done].
  - intros [Hk ->]. exists k. by rewrite elem_of_remove_dups.
Qed.

(** Looking a key up in the output of a GROUP BY. *)
Lemma group_by_lookup (key : A → K) (F : K * list A → B) (kb : B → K)
    (rows : list A) (k : K) :
  (∀ g, kb (F g) = g.1) →
  head (filter (λ b, kb b = k) (F <$> Sql.group_by key rows))
  = match filter (λ r, key r = k) rows with
    | [] => None
    | g => Some (F (k, g))
    end.
Proof.
  intros HF.
  assert (Hnd : NoDup (kb <$> (F <$> Sql.group_by key rows))).
  { rewrite <-list_fmap_compose.
    rewrite (list_fmap_ext (kb ∘ F) fst) by (intros; apply HF).
    apply group_by_keys_NoDup. }
  destruct (decide (k ∈ key <$> rows)) as [Hk|Hk].
  - assert (Hin : F (k, filter (λ r, key r = k) rows)
                  ∈ F <$> Sql.group_by key rows).
    { apply list_elem_of_fmap_2. by apply elem_of_group_by. }
    pose proof (filter_key_unique kb _ _ Hnd Hin) as Hu.
    rewrite HF in Hu. simpl in Hu. rewrite Hu. simpl.
    apply list_elem_of_fmap in Hk as (r & -> & Hr).
    assert (r ∈ filter (λ r0, key r0 = key r) rows)
      by (by apply list_elem_of_filter).
    by destruct (filter (λ r0, key r0 = key r) rows);
      [exfalso; eapply not_elem_of_nil|].
  - rewrite (filter_key_absent key k rows Hk).
    rewrite filter_key_absent; [done|].
    rewrite <-list_fmap_compose.
    rewrite (list_fmap_ext (kb ∘ F) fst) by (intros; apply HF).
    rewrite group_by_keys. by rewrite elem_of_remove_dups.
Qed.
End group_facts.

Section join_facts.
Context {A B K : Type} `{EqDecision K}.

(** A LEFT JOIN on a key that is unique on the right keeps each left row
    exactly once. *)
Lemma left_join_lookup (on : A → B → Prop) `{∀ a b, Decision (on a b)}
    (sel : A → option K) (kb : B → K) (l : list A) (r : list B) :
  (∀ a b, on a b ↔ sel a = Some (kb b)) →
  NoDup (kb <$> r) →
  Sql.left_join on l r
  = (λ a, (a, sel a ≫= λ k, head (filter (λ b, kb b = k) r))) <$> l.
Proof.
  intros Hon Hnd. unfold Sql.left_join.
  induction l as [|a l IH]; [done|].
  rewrite bind_cons, fmap_cons, IH. clear IH.
  assert (Hf : filter (on a) r
               = match sel a with
                 | Some k => filter (λ b, kb b = k) r
                 | None => []
                 end).
  { destruct (sel a) as [k|] eqn:Hs.
    - apply list_filter_iff. intros b. rewrite Hon, Hs.
      split; [by intros [= ->]|by intros ->].
    - induction r as [|b r IHr]; [done|].
      rewrite filter_cons_False; [|rewrite Hon, Hs; done].
      apply IHr. by apply NoDup_cons in Hnd as [_ ?]. }
  rewrite Hf. destruct (sel a) as [k|]; simpl; [|done].
  destruct (decide (k ∈ kb <$> r)) as [Hk|Hk].
  - apply list_elem_of_fmap in Hk as (b & -> & Hb).
    by rewrite (filter_key_unique kb b r Hnd Hb).
  - by rewrite (filter_key_absent kb k r Hk).
Qed.
End join_facts.

(** ** The CTEs, row by row *)

Lemma filter_fmap {A B} (f : A → B) (P : B → Prop) `{∀ x, Decision (P x)}
    (l : list A) :
  filter P (f <$> l) = f <$> filter (λ x, P (f x)) l.
Proof.
  induction l as [|x l IH]; [done|].
  rewrite fmap_cons, !filter_cons. simpl.
  destruct (decide (P (f x))); by rewrite IH.
Qed.

Lemma first_transactions_keys db :
  NoDup (ft_user_id <$> first_transactions db).
Proof.
  unfold first_transactions. rewrite <-list_fmap_compose.
  rewrite (list_fmap_ext _ fst) by done.
  apply group_by_keys_NoDup.
Qed.

Lemma base_data_eq db :
  base_data db = base_of db <$> filter (qualifies db) (transactions db).
Proof.
  unfold base_data.
  rewrite (left_join_lookup (on_ft db)
             (λ t, Some <$> (fst <$> join_u db t)) ft_user_id).
  - rewrite filter_fmap. simpl. by rewrite <-list_fmap_compose.
  - intros t f. unfold on_ft.
    destruct (ft_user_id f), (fst <$> join_u db t); simpl;
      (split; intros ?; by simplify_eq).
  - apply first_transactions_keys.
Qed.

Lemma qualifies_customer db t :
  qualifies db t → customer_id (base_of db t) = owner db t.
Proof.
  intros (_ & Hu & _). simpl. unfold join_u in *.
  destruct (owner db t) as [i|]; simpl in *; [|done].
  by destruct (users db !! i).
Qed.

Lemma qualifies_has_customer db t :
  qualifies db t → is_Some (owner db t).
Proof.
  intros (_ & Hu & _). unfold join_u in *.
  destruct (owner db t) as [i|]; simpl in *; [eauto|done].
Qed.

Lemma deposits_eq db :
  deposits db
  = base_of db
    <$> filter (λ t, qualifies db t ∧ effective_type t = "deposit")
          (transactions db).
Proof.
  unfold deposits. rewrite base_data_eq, filter_fmap. simpl.
  rewrite list_filter_filter. f_equal.
  apply list_filter_iff. intros t. tauto.
Qed.

Lemma general_summary_keys db :
  NoDup (General.ds_customer_id <$> General.depositors_summary db).
Proof.
  unfold General.depositors_summary. rewrite <-list_fmap_compose.
  rewrite (list_fmap_ext _ fst) by done.
  apply group_by_keys_NoDup.
Qed.

Lemma asset_summary_keys db :
  NoDup ((λ d, (Asset.ds_customer_id d, Asset.ds_asset_type d))
         <$> Asset.depositors_summary db).
Proof.
  unfold Asset.depositors_summary. rewrite <-list_fmap_compose.
  rewrite (list_fmap_ext _ fst) by (by intros ? [[] ?]).
  apply group_by_keys_NoDup.
Qed.

Lemma general_rows_eq db s e :
  General.rows db s e
  = (λ b, General.project (b, general_summary_of db b))
    <$> filter (in_window s e) (base_data db).
Proof.
  unfold General.rows.
  rewrite (left_join_lookup General.using_customer_id
             (λ b, Some <$> customer_id b) General.ds_customer_id).
  - rewrite <-list_fmap_compose. by rewrite filter_fmap.
  - intros b d. unfold General.using_customer_id.
    destruct (customer_id b), (General.ds_customer_id d); simpl;
      (split; intros ?; by simplify_eq).
  - apply general_summary_keys.
Qed.

Lemma asset_rows_eq db s e :
  Asset.rows db s e
  = (λ b, Asset.project (b, asset_summary_of db b))
    <$> filter (in_window s e) (base_data db).
Proof.
  unfold Asset.rows.
  rewrite (left_join_lookup Asset.on_ds asset_join_key
             (λ d, (Asset.ds_customer_id d, Asset.ds_asset_type d))).
  - rewrite <-list_fmap_compose. by rewrite filter_fmap.
  - intros b d. unfold Asset.on_ds, asset_join_key.
    destruct (customer_id b), (asset_type b), (Asset.ds_customer_id d),
      (Asset.ds_asset_type d); simpl;
      (split; [intros [??]|intros ?]; simplify_eq; try done; by split).
  - apply asset_summary_keys.
Qed.

(** The rows of both queries come from the same windowed [base_data]. *)
Lemma general_rows_bd db s e :
  bd <$> General.rows db s e = filter (in_window s e) (base_data db).
Proof.
  rewrite general_rows_eq, <-list_fmap_compose.
  rewrite (list_fmap_ext _ id) by done. apply list_fmap_id.
Qed.

Lemma asset_rows_bd db s e :
  bd <$> Asset.rows db s e = filter (in_window s e) (base_data db).
Proof.
  rewrite asset_rows_eq, <-list_fmap_compose.
  rewrite (list_fmap_ext _ id) by done. apply list_fmap_id.
Qed.

Lemma customer_deposits_eq db c :
  filter (λ b, customer_id b = Some c) (deposits db)
  = base_of db <$> all_deposits db c.
Proof.
  rewrite deposits_eq, filter_fmap, list_filter_filter. f_equal.
  apply list_filter_iff. intros t. split.
  - intros (Hc & Hq & Ht). cbv beta in Hc.
    by rewrite qualifies_customer in Hc.
  - intros (Hq & Ht & Hc). cbv beta. by rewrite qualifies_customer.
Qed.

Lemma customer_label_deposits_eq db c a :
  filter (λ b, (customer_id b, asset_type b) = (Some c, a)) (deposits db)
  = base_of db <$> all_deposits_in db c a.
Proof.
  unfold all_deposits_in, all_deposits.
  rewrite deposits_eq, filter_fmap, !list_filter_filter. f_equal.
  apply list_filter_iff. intros t. split.
  - intros (Hc & Hq & Ht). cbv beta in Hc.
    rewrite qualifies_customer in Hc by done.
    injection Hc as Ho Ha. by split_and!.
  - intros (Ha & Hq & Ht & Hc). cbv beta.
    rewrite qualifies_customer by done. by rewrite <-Ha, Hc.
Qed.

Lemma base_of_dates db (l : list transaction) :
  transaction_date <$> (base_of db <$> l) = t_updated_at <$> l.
Proof. by rewrite <-list_fmap_compose. Qed.

Lemma general_summary_columns db b c :
  customer_id b = Some c →
  ds_columns (General.project (b, general_summary_of db b))
  = summary_columns (all_deposits db c) c.
Proof.
  intros Hc. unfold general_summary_of, General.depositors_summary.
  rewrite Hc. simpl.
  rewrite (group_by_lookup customer_id _ General.ds_customer_id) by done.
  rewrite customer_deposits_eq.
  destruct (all_deposits db c) as [|t l]; [done|].
  unfold ds_columns, summary_columns, distinct_timestamps.
  by rewrite <-!(base_of_dates db (t :: l)).
Qed.

Lemma asset_summary_columns db b c a :
  customer_id b = Some c → asset_type b = Some a →
  ds_columns (Asset.project (b, asset_summary_of db b))
  = summary_columns (all_deposits_in db c (Some a)) c.
Proof.
  intros Hc Ha. unfold asset_summary_of, asset_join_key,
    Asset.depositors_summary.
  rewrite Hc, Ha. simpl.
  rewrite (group_by_lookup (λ b, (customer_id b, asset_type b)) _
             (λ d, (Asset.ds_customer_id d, Asset.ds_asset_type d)))
    by (by intros [[] ?]).
  rewrite customer_label_deposits_eq.
  destruct (all_deposits_in db c (Some a)) as [|t l]; [done|].
  unfold ds_columns, summary_columns, distinct_timestamps.
  by rewrite <-!(base_of_dates db (t :: l)).
Qed.

Lemma asset_summary_columns_null db b :
  asset_type b = None →
  ds_columns (Asset.project (b, asset_summary_of db b)) = (None, None, None).
Proof.
  intros Ha. unfold asset_summary_of, asset_join_key. rewrite Ha.
  by destruct (customer_id b).
Qed.

(** ** Aggregates *)

Lemma min_spec (l : list Z) (m : Z) :
  Sql.min l = Some m ↔ m ∈ l ∧ ∀ x, x ∈ l → m ≤ x.
Proof.
  revert m. induction l as [|y l IH]; intros m.
  - split; [done|]. by intros [?%elem_of_nil _].
  - simpl. destruct (Sql.min l) as [m'|] eqn:Hm.
    + destruct (IH m') as [[Hin Hle] _]; [done|].
      split.
      * intros [= <-]. split.
        -- destruct (Z.min_spec y m') as [[_ ->]|[_ ->]];
             [left|by right].
        -- intros x [->|Hx]%elem_of_cons; [lia|].
           specialize (Hle x Hx). lia.
      * intros [Hm1 Hm2]. f_equal.
        assert (m ≤ y) by (apply Hm2; left).
        assert (m ≤ m') by (apply Hm2; by right).
        apply elem_of_cons in Hm1 as [->|Hm1]; [lia|].
        specialize (Hle m Hm1). lia.
    + assert (l = []) as -> by (by destruct l).
      split.
      * intros [= <-]. split; [left|].
        by intros x ->%list_elem_of_singleton.
      * intros [->%list_elem_of_singleton _]. done.
Qed.

Lemma min_is_Some (l : list Z) : l ≠ [] → is_Some (Sql.min l).
Proof. destruct l; [done|]. simpl. eauto. Qed.

Lemma elem_of_distinct {A} `{EqDecision A} (l : list (option A)) (x : A) :
  x ∈ Sql.distinct l ↔ Some x ∈ l.
Proof.
  unfold Sql.distinct, Sql.non_null.
  rewrite elem_of_remove_dups, list_elem_of_omap. split.
  - intros (y & Hy & Heq). unfold id in Heq. by subst.
  - intros Hx. by exists (Some x).
Qed.

Lemma distinct_NoDup {A} `{EqDecision A} (l : list (option A)) :
  NoDup (Sql.distinct l).
Proof. apply NoDup_remove_dups. Qed.

Lemma distinct_timestamps_pos (l : list transaction) :
  (0 < distinct_timestamps l)%nat → l ≠ [].
Proof. intros H ->. unfold distinct_timestamps in H. simpl in H. lia. Qed.

Section summarised_rows.
Variable D : Z → list transaction.
Variable rows : list joined_row.
Hypothesis Hrows : summarised D rows.

Lemma summarised_recurring r c :
  r ∈ rows → customer_id (bd r) = Some c →
  (recurring_filter r ↔ (1 < distinct_timestamps (D c))%nat).
Proof.
  intros Hr Hc. destruct (Hrows r Hr) as (c' & Hc' & Hcols).
  assert (c' = c) as -> by congruence.
  unfold ds_columns, summary_columns in Hcols. unfold recurring_filter.
  destruct r as [b jc jf jn]. simpl in *.
  destruct (D c) as [|t l]; simplify_eq; [|done].
  unfold distinct_timestamps. simpl. split; [done|lia].
Qed.

Lemma summarised_new s e r c :
  r ∈ rows → customer_id (bd r) = Some c →
  (new_filter s e r
   ↔ distinct_timestamps (D c) = 1%nat ∧ first_in_window s e (D c)).
Proof.
  intros Hr Hc. destruct (Hrows r Hr) as (c' & Hc' & Hcols).
  assert (c' = c) as -> by congruence.
  unfold ds_columns, summary_columns in Hcols.
  unfold new_filter, first_in_window.
  destruct r as [b jc jf jn]. simpl in *.
  destruct (D c) as [|t l]; simplify_eq.
  - unfold distinct_timestamps. simpl. split; [done|]. by intros [? _].
  - destruct (Sql.min (t_updated_at <$> t :: l)) as [f|] eqn:Hf.
    + split; [intros [? ?]; eauto|]. by intros [? (f' & [= <-] & ?)].
    + split; [done|]. by intros [_ (f' & ? & _)].
Qed.

Lemma summarised_customer r c :
  r ∈ rows → customer_id (bd r) = Some c → D c ≠ [] →
  j_customer_id r = Some c
  ∧ j_tx_days r = Some (distinct_timestamps (D c))
  ∧ j_first_deposit_date r = Sql.min (t_updated_at <$> D c).
Proof.
  intros Hr Hc Hne. destruct (Hrows r Hr) as (c' & Hc' & Hcols).
  assert (c' = c) as -> by congruence.
  unfold ds_columns, summary_columns in Hcols.
  destruct r as [b jc jf jn]. simpl in *.
  destruct (D c) as [|t l]; [done|]. by simplify_eq.
Qed.

Lemma summarised_joined_customer r c :
  r ∈ rows → j_customer_id r = Some c →
  customer_id (bd r) = Some c ∧ D c ≠ [].
Proof.
  intros Hr Hj. destruct (Hrows r Hr) as (c' & Hc' & Hcols).
  unfold ds_columns, summary_columns in Hcols.
  destruct r as [b jc jf jn]. simpl in *.
  destruct (D c') as [|t l] eqn:HD; simplify_eq.
  split; [done|]. by rewrite HD.
Qed.

Lemma recurring_ids_iff c :
  c ∈ recurring_depositor_ids rows
  ↔ has_row rows c ∧ (1 < distinct_timestamps (D c))%nat.
Proof.
  unfold recurring_depositor_ids, has_row.
  rewrite elem_of_distinct, list_elem_of_fmap. split.
  - intros (r & Hj & [Hf Hr]%list_elem_of_filter).
    symmetry in Hj.
    destruct (summarised_joined_customer r c Hr Hj) as [Hc _].
    split; [eauto|]. by apply (summarised_recurring r c).
  - intros [(r & Hr & Hc) Hn].
    exists r. split.
    + symmetry. apply (summarised_customer r c Hr Hc).
      apply distinct_timestamps_pos. lia.
    + apply list_elem_of_filter. split; [|done].
      by apply (summarised_recurring r c).
Qed.

Lemma new_ids_iff s e c :
  c ∈ new_depositor_ids s e rows
  ↔ has_row rows c
    ∧ distinct_timestamps (D c) = 1%nat ∧ first_in_window s e (D c).
Proof.
  unfold new_depositor_ids, has_row.
  rewrite elem_of_distinct, list_elem_of_fmap. split.
  - intros (r & Hj & [Hf Hr]%list_elem_of_filter).
    symmetry in Hj.
    destruct (summarised_joined_customer r c Hr Hj) as [Hc _].
    split; [eauto|]. by apply (summarised_new s e r c).
  - intros [(r & Hr & Hc) [Hn Hw]].
    exists r. split.
    + symmetry. apply (summarised_customer r c Hr Hc).
      apply distinct_timestamps_pos. lia.
    + apply list_elem_of_filter. split; [|done].
      by apply (summarised_new s e r c).
Qed.

Lemma new_not_recurring s e c :
  c ∈ new_depositor_ids s e rows → c ∉ recurring_depositor_ids rows.
Proof. rewrite new_ids_iff, recurring_ids_iff. intros (_ & ? & _) [_ ?]. lia. Qed.

Lemma labelled_has_deposit s e c :
  c ∈ new_depositor_ids s e rows ∨ c ∈ recurring_depositor_ids rows →
  has_row rows c ∧ D c ≠ [].
Proof.
  rewrite new_ids_iff, recurring_ids_iff.
  intros [(? & ? & _)|[? ?]]; (split; [done|]);
    apply distinct_timestamps_pos; lia.
Qed.
End summarised_rows.

(** ** The joined rows of the two queries *)

Lemma base_data_elem db b :
  b ∈ base_data db
  ↔ ∃ t, t ∈ transactions db ∧ qualifies db t ∧ b = base_of db t.
Proof.
  rewrite base_data_eq, list_elem_of_fmap. split.
  - intros (t & -> & [Hq Ht]%list_elem_of_filter). eauto.
  - intros (t & Ht & Hq & ->). exists t. split; [done|].
    by apply list_elem_of_filter.
Qed.

Lemma general_rows_elem db s e r :
  r ∈ General.rows db s e
  ↔ ∃ t, t ∈ transactions db ∧ qualifies db t
         ∧ ts_between s e (t_updated_at t)
         ∧ r = General.project
                 (base_of db t, general_summary_of db (base_of db t)).
Proof.
  rewrite general_rows_eq, list_elem_of_fmap. split.
  - intros (b & -> & [Hw Hb]%list_elem_of_filter).
    apply base_data_elem in Hb as (t & Ht & Hq & ->). eauto.
  - intros (t & Ht & Hq & Hw & ->). eexists. split; [done|].
    apply list_elem_of_filter. split; [done|].
    apply base_data_elem. eauto.
Qed.

Lemma asset_rows_elem db s e r :
  r ∈ Asset.rows db s e
  ↔ ∃ t, t ∈ transactions db ∧ qualifies db t
         ∧ ts_between s e (t_updated_at t)
         ∧ r = Asset.project
                 (base_of db t, asset_summary_of db (base_of db t)).
Proof.
  rewrite asset_rows_eq, list_elem_of_fmap. split.
  - intros (b & -> & [Hw Hb]%list_elem_of_filter).
    apply base_data_elem in Hb as (t & Ht & Hq & ->). eauto.
  - intros (t & Ht & Hq & Hw & ->). eexists. split; [done|].
    apply list_elem_of_filter. split; [done|].
    apply base_data_elem. eauto.
Qed.

Lemma general_summarised db s e :
  summarised (all_deposits db) (General.rows db s e).
Proof.
  intros r (t & Ht & Hq & Hw & ->)%general_rows_elem.
  destruct (qualifies_has_customer db t Hq) as [c Hc].
  exists c. split.
  - simpl. by rewrite <-Hc, <-qualifies_customer.
  - apply general_summary_columns. by rewrite qualifies_customer.
Qed.

Lemma asset_groups_elem db s e g rs :
  (g, rs) ∈ Asset.groups db s e
  ↔ (∃ r, r ∈ Asset.rows db s e ∧ asset_type (bd r) = g)
    ∧ rs = filter (λ r, asset_type (bd r) = g) (Asset.rows db s e).
Proof.
  unfold Asset.groups. rewrite elem_of_group_by, list_elem_of_fmap. split.
  - intros [(r & -> & Hr) ->]. split; [eauto|done].
  - intros [(r & Hr & <-) ->]. split; [eauto|done].
Qed.

Lemma asset_group_summarised db s e g rs :
  (g, rs) ∈ Asset.groups db s e → summarised (group_deposits db g) rs.
Proof.
  intros [_ ->]%asset_groups_elem r [Hg Hr]%list_elem_of_filter.
  apply asset_rows_elem in Hr as (t & Ht & Hq & Hw & ->).
  destruct (qualifies_has_customer db t Hq) as [c Hc].
  assert (Hcust : customer_id (base_of db t) = Some c)
    by (by rewrite qualifies_customer).
  exists c. split; [done|].
  simpl in Hg. unfold group_deposits. destruct g as [a|].
  - by apply asset_summary_columns.
  - by apply asset_summary_columns_null.
Qed.

Lemma total_ids_iff rows c :
  c ∈ total_depositor_ids rows
  ↔ ∃ r, r ∈ rows ∧ type_is "deposit" r ∧ customer_id (bd r) = Some c.
Proof.
  unfold total_depositor_ids.
  rewrite elem_of_distinct, list_elem_of_fmap. split.
  - intros (r & Hc & [Hf Hr]%list_elem_of_filter). eauto.
  - intros (r & Hr & Hf & Hc). exists r. split; [done|].
    by apply list_elem_of_filter.
Qed.

Lemma counted_elem db s e ty t :
  t ∈ counted db s e ty
  ↔ t ∈ transactions db ∧ qualifies db t
    ∧ ts_between s e (t_updated_at t) ∧ effective_type t = ty.
Proof. unfold counted. rewrite list_elem_of_filter. tauto. Qed.

Lemma counted_in_elem db s e g ty t :
  t ∈ counted_in db s e g ty
  ↔ t ∈ counted db s e ty ∧ asset_label db t = g.
Proof. unfold counted_in. rewrite list_elem_of_filter. tauto. Qed.

Lemma general_total_ids db s e c :
  c ∈ total_depositor_ids (General.rows db s e)
  ↔ ∃ t, t ∈ counted db s e "deposit" ∧ owner db t = Some c.
Proof.
  rewrite total_ids_iff. split.
  - intros (r & (t & Ht & Hq & Hw & ->)%general_rows_elem & Hf & Hc).
    exists t. split; [by apply counted_elem|].
    by rewrite <-qualifies_customer.
  - intros (t & (Ht & Hq & Hw & Hty)%counted_elem & Hc).
    eexists. split; [apply general_rows_elem; eauto|].
    split; [done|]. simpl. by rewrite <-Hc, <-qualifies_customer.
Qed.

Lemma asset_total_ids db s e g rs c :
  (g, rs) ∈ Asset.groups db s e →
  c ∈ total_depositor_ids rs
  ↔ ∃ t, t ∈ counted_in db s e g "deposit" ∧ owner db t = Some c.
Proof.
  intros [_ ->]%asset_groups_elem. rewrite total_ids_iff. split.
  - intros (r & [Hg (t & Ht & Hq & Hw & ->)%asset_rows_elem]
                  %list_elem_of_filter & Hf & Hc).
    exists t. split.
    + apply counted_in_elem. split; [by apply counted_elem|done].
    + by rewrite <-qualifies_customer.
  - intros (t & [(Ht & Hq & Hw & Hty)%counted_elem Hg]%counted_in_elem & Hc).
    eexists. split.
    + apply list_elem_of_filter. split; [|apply asset_rows_elem; eauto].
      done.
    + split; [done|]. simpl. by rewrite <-Hc, <-qualifies_customer.
Qed.

(** ** C1: what tx_days counts *)

Lemma with_first_transaction_date_recurring (v : joined_row → option Z)
    (rows : list joined_row) :
  recurring_depositor_ids ((λ r, with_first_transaction_date (v r) r) <$> rows)
  = recurring_depositor_ids rows.
Proof.
  unfold recurring_depositor_ids. f_equal.
  rewrite filter_fmap, <-list_fmap_compose. done.
Qed.

Lemma with_first_transaction_date_new (v : joined_row → option Z) s e
    (rows : list joined_row) :
  new_depositor_ids s e ((λ r, with_first_transaction_date (v r) r) <$> rows)
  = new_depositor_ids s e rows.
Proof.
  unfold new_depositor_ids. f_equal.
  rewrite filter_fmap, <-list_fmap_compose. done.
Qed.

(** C1, as stated, fails: the customer's in-window deposits have one
    distinct timestamp, but the tx_days joined to the customer's in-window
    deposit row is 2, and the customer is counted as recurring. *)
Lemma C1_tx_days_not_windowed :
  ∃ r, r ∈ General.rows Samples.early_and_late 35 45
       ∧ type_is "deposit" r
       ∧ customer_id (bd r) = Some 1
       ∧ spec_tx_days_in_window Samples.early_and_late 35 45 1 = 1%nat
       ∧ j_tx_days r = Some 2%nat
       ∧ recurring_depositor_ids (General.rows Samples.early_and_late 35 45)
         = [1]
       ∧ new_depositor_ids 35 45 (General.rows Samples.early_and_late 35 45)
         = [].
Proof.
  eexists. split; [apply list_elem_of_lookup_2 with 0%nat; vm_compute; done|].
  vm_compute. by repeat split.
Qed.

(** C1, amended: for every window and every customer with a qualifying
    transaction in the window and a qualifying deposit at any time, the
    tx_days joined to the customer's rows is the number of distinct
    timestamps among all qualifying deposits of the customer, with no
    window bound (in the asset breakdown: among those under the row's
    asset type).  The customer is counted as recurring exactly when this
    number exceeds 1, and as new exactly when it is 1 and the earliest such
    deposit falls on a day of the window.  Neither count reads the
    first_transaction_date column. *)
Theorem C1_tx_days_counts_all_deposits (db : database) (s e : Z) :
  (∀ r c, r ∈ General.rows db s e → customer_id (bd r) = Some c →
          all_deposits db c ≠ [] →
          j_tx_days r = Some (distinct_timestamps (all_deposits db c)))
  ∧ (∀ g rs r c, (g, rs) ∈ Asset.groups db s e → r ∈ rs →
          customer_id (bd r) = Some c → is_Some g →
          all_deposits_in db c g ≠ [] →
          j_tx_days r = Some (distinct_timestamps (all_deposits_in db c g)))
  ∧ (∀ c, c ∈ recurring_depositor_ids (General.rows db s e)
          ↔ has_row (General.rows db s e) c
            ∧ (1 < distinct_timestamps (all_deposits db c))%nat)
  ∧ (∀ c, c ∈ new_depositor_ids s e (General.rows db s e)
          ↔ has_row (General.rows db s e) c
            ∧ distinct_timestamps (all_deposits db c) = 1%nat
            ∧ first_in_window s e (all_deposits db c))
  ∧ (∀ g rs c, (g, rs) ∈ Asset.groups db s e →
          (c ∈ recurring_depositor_ids rs
           ↔ has_row rs c
             ∧ (1 < distinct_timestamps (group_deposits db g c))%nat)
          ∧ (c ∈ new_depositor_ids s e rs
             ↔ has_row rs c
               ∧ distinct_timestamps (group_deposits db g c) = 1%nat
               ∧ first_in_window s e (group_deposits db g c)))
  ∧ (∀ (v : joined_row → option Z) rows,
        recurring_depositor_ids
          ((λ r, with_first_transaction_date (v r) r) <$> rows)
        = recurring_depositor_ids rows
        ∧ new_depositor_ids s e
            ((λ r, with_first_transaction_date (v r) r) <$> rows)
          = new_depositor_ids s e rows).
Proof.
  split_and!.
  - intros r c Hr Hc Hne.
    by apply (summarised_customer _ _ (general_summarised db s e) r c).
  - intros g rs r c Hg Hr Hc [a ->] Hne.
    by apply (summarised_customer _ _ (asset_group_summarised _ _ _ _ _ Hg) r c).
  - apply recurring_ids_iff, general_summarised.
  - intros c. apply new_ids_iff, general_summarised.
  - intros g rs c Hg. split.
    + by apply recurring_ids_iff, (asset_group_summarised db s e).
    + by apply new_ids_iff, (asset_group_summarised db s e).
  - intros v rows. split.
    + apply with_first_transaction_date_recurring.
    + apply with_first_transaction_date_new.
Qed.

Lemma C1_witness :
  ∃ r, r ∈ General.rows Samples.early_and_late 35 45
       ∧ customer_id (bd r) = Some 1
       ∧ all_deposits Samples.early_and_late 1 ≠ []
       ∧ j_tx_days r
         = Some (distinct_timestamps (all_deposits Samples.early_and_late 1)).
Proof.
  eexists.
  assert (H1 : ∀ A (x : A) l, head l = Some x → x ∈ l).
  { intros A x [|y l]; [done|]. intros [= ->]. left. }
  pose proof (H1 _ _ (General.rows Samples.early_and_late 35 45) eq_refl)
    as Hr.
  split; [exact Hr|]. split; [reflexivity|]. split; [by vm_compute|].
  exact (proj1 (C1_tx_days_counts_all_deposits Samples.early_and_late 35 45)
           _ 1 Hr eq_refl ltac:(by vm_compute)).
Defined.

(** ** C2: the first transaction date *)

Lemma first_transactions_elem db f :
  f ∈ first_transactions db
  ↔ (∃ t, t ∈ transactions db ∧ t_status t = "success"
          ∧ owner db t = ft_user_id f)
    ∧ ft_first_transaction_date f
      = Sql.min (t_updated_at <$>
                 filter (λ t, t_status t = "success"
                              ∧ owner db t = ft_user_id f)
                   (transactions db)).
Proof.
  unfold first_transactions. rewrite list_elem_of_fmap. split.
  - intros ([k g] & -> & [Hk ->]%elem_of_group_by). simpl.
    apply list_elem_of_fmap in Hk as (t & -> & [Hs Ht]%list_elem_of_filter).
    split; [eauto|]. rewrite list_filter_filter. do 2 f_equal.
    apply list_filter_iff. intros t'. tauto.
  - intros [(t & Ht & Hs & Ho) Hm]. destruct f as [k d]. simpl in *.
    exists (k, filter (λ t, owner db t = k)
                 (filter (λ t, t_status t = "success") (transactions db))).
    split.
    + simpl. f_equal. rewrite Hm, list_filter_filter. do 2 f_equal.
      apply list_filter_iff. intros t'. tauto.
    + apply elem_of_group_by. split; [|done].
      apply list_elem_of_fmap. exists t. split; [done|].
      by apply list_elem_of_filter.
Qed.

Lemma first_transaction_of_qualifying db t :
  t ∈ transactions db → qualifies db t →
  ∃ f, first_transaction_of db t = Some f
       ∧ f ∈ first_transactions db ∧ ft_user_id f = owner db t.
Proof.
  intros Ht Hq. unfold first_transaction_of.
  pose proof (qualifies_customer db t Hq) as Hc. simpl in Hc. rewrite Hc.
  destruct (qualifies_has_customer db t Hq) as [c Ho]. rewrite Ho. simpl.
  destruct (filter (λ f, ft_user_id f = Some c) (first_transactions db))
    as [|f l] eqn:Hf.
  - exfalso.
    set (f0 := {| ft_user_id := Some c;
                  ft_first_transaction_date :=
                    Sql.min (t_updated_at <$>
                       filter (λ t, t_status t = "success"
                                    ∧ owner db t = Some c)
                         (transactions db)) |}).
    assert (Hin : f0 ∈ first_transactions db).
    { apply first_transactions_elem. split; [|done].
      exists t. destruct Hq as (? & _). by split_and!. }
    by apply (filter_nil_not_elem_of _ _ f0 Hf).
  - exists f. split; [done|].
    assert (Hin : f ∈ filter (λ f, ft_user_id f = Some c)
                        (first_transactions db)) by (rewrite Hf; left).
    by apply list_elem_of_filter in Hin as [? ?].
Qed.

(** C2, as stated, fails: the customer's earliest successful transaction
    came through the excluded provider at time 100; the first transaction
    date joined to the customer's rows is 100, while the earliest
    qualifying transaction is at time 500. *)
Lemma C2_first_transaction_ignores_provider :
  first_transaction_date <$> base_data Samples.excluded_first = [Some 100]
  ∧ spec_first_transaction_date Samples.excluded_first 1 = Some 500.
Proof. by vm_compute. Qed.

(** C2, amended: first_transaction_date has one row per owner of a
    successful transaction, and for every customer it is the minimum
    timestamp over all of that customer's transactions with status success;
    no window bound, no restriction test and no provider test is applied.
    This is the value joined to each row of base_data. *)
Theorem C2_first_transaction_over_successful (db : database) :
  NoDup (ft_user_id <$> first_transactions db)
  ∧ (∀ t, t ∈ transactions db → t_status t = "success" →
          ∃ f, f ∈ first_transactions db ∧ ft_user_id f = owner db t)
  ∧ (∀ f, f ∈ first_transactions db →
          ∃ m, ft_first_transaction_date f = Some m
               ∧ (∃ t, t ∈ transactions db ∧ t_status t = "success"
                       ∧ owner db t = ft_user_id f ∧ t_updated_at t = m)
               ∧ (∀ t, t ∈ transactions db → t_status t = "success" →
                       owner db t = ft_user_id f → m ≤ t_updated_at t))
  ∧ (∀ t, t ∈ transactions db → qualifies db t →
          ∃ f, f ∈ first_transactions db ∧ ft_user_id f = owner db t
               ∧ first_transaction_date (base_of db t)
                 = ft_first_transaction_date f).
Proof.
  split_and!.
  - apply first_transactions_keys.
  - intros t Ht Hs.
    exists {| ft_user_id := owner db t;
              ft_first_transaction_date :=
                Sql.min (t_updated_at <$>
                   filter (λ t', t_status t' = "success"
                                 ∧ owner db t' = owner db t)
                     (transactions db)) |}.
    split; [|done]. apply first_transactions_elem.
    split; [exists t; by split_and!|done].
  - intros f [(t & Ht & Hs & Ho) Hm]%first_transactions_elem.
    destruct (min_is_Some (t_updated_at <$>
                filter (λ t, t_status t = "success"
                             ∧ owner db t = ft_user_id f)
                  (transactions db))) as [m Hmin].
    { intros Hnil%fmap_nil_inv.
      by apply (filter_nil_not_elem_of _ _ t Hnil). }
    exists m. split; [congruence|].
    apply min_spec in Hmin as [Hin Hle]. split.
    + apply list_elem_of_fmap in Hin
        as (t' & -> & [[? ?] ?]%list_elem_of_filter). eauto.
    + intros t' Ht' Hs' Ho'. apply Hle, list_elem_of_fmap_2.
      by apply list_elem_of_filter.
  - intros t Ht Hq.
    destruct (first_transaction_of_qualifying db t Ht Hq)
      as (f & Hf & Hin & Ho).
    exists f. split_and!; [done..|]. simpl. by rewrite Hf.
Qed.

Lemma C2_witness :
  ∃ f, f ∈ first_transactions Samples.excluded_first
       ∧ ft_user_id f = Some 1
       ∧ ft_first_transaction_date f = Some 100.
Proof.
  destruct (proj1 (proj2 (C2_first_transaction_over_successful
                            Samples.excluded_first))
              (Samples.tx 1 "deposit" None 100 10 100 "Flex Dollar"
                 None (Some 10)))
    as (f & Hf & Ho); [left|reflexivity|].
  exists f. split; [done|]. split; [done|].
  revert Hf Ho. vm_compute. intros Hf Ho.
  apply list_elem_of_singleton in Hf. by subst.
Defined.

(** ** C3: new, recurring and total depositors *)

(** C3, as stated, fails: the customer deposited twice before the window
    and only withdrew inside it; the customer is counted among the
    recurring depositors of the window and not among its depositors, in
    the overall figures and in the customer's asset-type group.  Likewise
    a customer whose only deposit is on the last day of the window, after
    midnight, and who withdrew earlier in the window, is counted as new
    and not among the depositors. *)
Lemma C3_recurring_without_deposit_in_window :
  recurring_depositor_ids (General.rows Samples.old_depositor 35 45) = [1]
  ∧ total_depositor_ids (General.rows Samples.old_depositor 35 45) = []
  ∧ (λ g, (g.1, recurring_depositor_ids g.2, total_depositor_ids g.2))
    <$> Asset.groups Samples.old_depositor 35 45
    = [(Some "goal savings", [1], [])]
  ∧ new_depositor_ids 35 45 (General.rows Samples.last_day_deposit 35 45)
    = [1]
  ∧ total_depositor_ids (General.rows Samples.last_day_deposit 35 45) = [].
Proof. by vm_compute. Qed.

Lemma first_in_window_deposit s e (l : list transaction) :
  first_in_window s e l →
  ∃ t, t ∈ l ∧ date_between s e (t_updated_at t).
Proof.
  intros (f & [Hin _]%min_spec & Hw).
  apply list_elem_of_fmap in Hin as (t & -> & Ht). eauto.
Qed.

(** C3, amended: for every window and every grouping, the customers
    counted as new and those counted as recurring are disjoint, and each
    of them has a qualifying transaction of some type in the window (in
    the group) and a qualifying deposit at some time (under the group's
    asset type); a customer counted as new has a qualifying deposit on a
    day of the window.  The customers counted in total_depositors are
    those with a qualifying deposit in the window (in the group). *)
Theorem C3_new_recurring_disjoint (db : database) (s e : Z) :
  (∀ c, c ∈ new_depositor_ids s e (General.rows db s e) →
        c ∉ recurring_depositor_ids (General.rows db s e))
  ∧ (∀ c, c ∈ new_depositor_ids s e (General.rows db s e)
          ∨ c ∈ recurring_depositor_ids (General.rows db s e) →
          has_row (General.rows db s e) c ∧ all_deposits db c ≠ [])
  ∧ (∀ c, c ∈ new_depositor_ids s e (General.rows db s e) →
          ∃ t, t ∈ all_deposits db c ∧ date_between s e (t_updated_at t))
  ∧ (∀ c, c ∈ total_depositor_ids (General.rows db s e)
          ↔ ∃ t, t ∈ counted db s e "deposit" ∧ owner db t = Some c)
  ∧ (∀ g rs, (g, rs) ∈ Asset.groups db s e →
        (∀ c, c ∈ new_depositor_ids s e rs →
              c ∉ recurring_depositor_ids rs)
        ∧ (∀ c, c ∈ new_depositor_ids s e rs
                ∨ c ∈ recurring_depositor_ids rs →
                has_row rs c ∧ all_deposits_in db c g ≠ [])
        ∧ (∀ c, c ∈ new_depositor_ids s e rs →
                ∃ t, t ∈ all_deposits_in db c g
                     ∧ date_between s e (t_updated_at t))
        ∧ (∀ c, c ∈ total_depositor_ids rs
                ↔ ∃ t, t ∈ counted_in db s e g "deposit"
                       ∧ owner db t = Some c)).
Proof.
  split_and!.
  - intros c. apply (new_not_recurring _ _ (general_summarised db s e)).
  - intros c. apply (labelled_has_deposit _ _ (general_summarised db s e)).
  - intros c Hc.
    apply (new_ids_iff _ _ (general_summarised db s e)) in Hc as (_ & _ & Hw).
    by apply first_in_window_deposit.
  - apply general_total_ids.
  - intros g rs Hg.
    pose proof (asset_group_summarised db s e g rs Hg) as Hsum.
    split_and!.
    + intros c. apply (new_not_recurring _ _ Hsum).
    + intros c Hc.
      destruct (labelled_has_deposit _ _ Hsum s e c Hc) as [Hrow Hne].
      split; [done|]. unfold group_deposits in Hne. by destruct g.
    + intros c Hc. apply (new_ids_iff _ _ Hsum) in Hc as (_ & _ & Hw).
      apply first_in_window_deposit in Hw as (t & Ht & Hd).
      unfold group_deposits in Ht. destruct g; [eauto|].
      by apply elem_of_nil in Ht.
    + intros c. by apply asset_total_ids.
Qed.

Lemma C3_witness :
  1 ∈ new_depositor_ids 0 10 (General.rows Samples.unlisted_asset 0 10)
  ∧ 1 ∉ recurring_depositor_ids (General.rows Samples.unlisted_asset 0 10).
Proof.
  assert (H1 : 1 ∈ new_depositor_ids 0 10
                     (General.rows Samples.unlisted_asset 0 10))
    by (vm_compute; left).
  split; [exact H1|].
  exact (proj1 (C3_new_recurring_disjoint Samples.unlisted_asset 0 10) 1 H1).
Defined.

(** ** Sums and counts per effective type *)

Lemma typed_rows ty (rows : list joined_row) :
  bd <$> filter (type_is ty) rows
  = filter (λ b, transaction_type b = ty) (bd <$> rows).
Proof. by rewrite filter_fmap. Qed.

Lemma windowed_typed_base db s e ty :
  filter (λ b, transaction_type b = ty)
    (filter (in_window s e) (base_data db))
  = base_of db <$> counted db s e ty.
Proof.
  rewrite base_data_eq, !filter_fmap, !list_filter_filter. f_equal.
  apply list_filter_iff. intros t. unfold in_window. simpl. tauto.
Qed.

Lemma general_typed db s e ty :
  bd <$> filter (type_is ty) (General.rows db s e)
  = base_of db <$> counted db s e ty.
Proof. by rewrite typed_rows, general_rows_bd, windowed_typed_base. Qed.

Lemma labelled_rows g (rows : list joined_row) :
  bd <$> filter (λ r, asset_type (bd r) = g) rows
  = filter (λ b, asset_type b = g) (bd <$> rows).
Proof. by rewrite filter_fmap. Qed.

Lemma filter_swap {A} (P Q : A → Prop) `{∀ x, Decision (P x)}
    `{∀ x, Decision (Q x)} (l : list A) :
  filter P (filter Q l) = filter Q (filter P l).
Proof.
  rewrite !list_filter_filter. apply list_filter_iff. intros x. tauto.
Qed.

Lemma group_typed db s e g rs ty :
  (g, rs) ∈ Asset.groups db s e →
  bd <$> filter (type_is ty) rs = base_of db <$> counted_in db s e g ty.
Proof.
  intros [_ ->]%asset_groups_elem.
  rewrite typed_rows, labelled_rows, asset_rows_bd, filter_swap.
  rewrite windowed_typed_base, filter_fmap. done.
Qed.

Lemma sum_of_typed (col : base_row → Qc) (tcol : transaction → Qc) db ty
    (rows : list joined_row) (l : list transaction) :
  (∀ t, col (base_of db t) = tcol t) →
  bd <$> filter (type_is ty) rows = base_of db <$> l →
  sum_of col ty rows = Sql.sum (tcol <$> l).
Proof.
  intros Hcol Hl. unfold sum_of.
  rewrite (list_fmap_compose bd col), Hl, <-list_fmap_compose.
  f_equal. apply list_fmap_ext. intros _ t _. apply Hcol.
Qed.

Lemma count_typed db ty (rows : list joined_row) (l : list transaction) :
  bd <$> filter (type_is ty) rows = base_of db <$> l →
  Sql.count (filter (type_is ty) rows) = length l.
Proof.
  intros Hl. unfold Sql.count.
  by rewrite <-(length_fmap bd), Hl, length_fmap.
Qed.

Lemma load_asset_metrics_elem db s e am :
  am ∈ Asset.load_asset_metrics db s e
  ↔ ∃ g rs, (g, rs) ∈ Asset.groups db s e
            ∧ am = Asset.select_group s e (g, rs).
Proof.
  unfold Asset.load_asset_metrics, Asset.asset_metrics_cte.
  rewrite merge_sort_Permutation, list_elem_of_fmap. split.
  - intros ([g rs] & -> & Hg). eauto.
  - intros (g & rs & Hg & ->). eauto.
Qed.

(** ** C4: assets under management *)

(** Whatever the withdrawals, the net position is absent exactly when the
    deposit sum is: the COALESCE of the expression covers the withdrawal
    sum only. *)
Lemma aum_absent_iff (col : base_row → Qc) (rows : list joined_row) :
  aum_of col rows = None ↔ sum_of col "deposit" rows = None.
Proof.
  unfold aum_of. by destruct (sum_of col "deposit" rows).
Qed.

(** C4 at [Samples.old_depositor] with the window of days 35 to 45, which
    holds one withdrawal of 30 (3 in USD) and no deposit.  Overall and in
    the row of "goal savings" the withdrawal value is 30 and the deposit
    value is absent; the AUM is absent as well, and [fmt] shows it as 0.00,
    whereas no deposit less a withdrawal of 30 is 30 below zero. *)
Theorem C4_aum_absent_without_deposit :
  let m := General.common
             (General.load_general_metrics Samples.old_depositor 35 45) in
  let rows := Asset.load_asset_metrics Samples.old_depositor 35 45 in
  (deposit_count m = 0%nat ∧ withdrawal_count m = 1%nat
   ∧ deposit_value_ghs m = None ∧ deposit_value_usd m = None
   ∧ (this <$> withdrawal_value_ghs m) = Some (30 # 1)%Q
   ∧ (this <$> withdrawal_value_usd m) = Some (3 # 1)%Q
   ∧ aum_ghs m = None ∧ aum_usd m = None)
  ∧ (∀ render, fmt render (aum_ghs m) = "0.00"
               ∧ fmt render (aum_usd m) = "0.00")
  ∧ (λ am, (Asset.am_asset_type am,
            deposit_value_ghs (Asset.am_metrics am),
            this <$> withdrawal_value_ghs (Asset.am_metrics am),
            aum_ghs (Asset.am_metrics am),
            aum_usd (Asset.am_metrics am))) <$> rows
    = [ (Some "goal savings", None, Some (30 # 1)%Q, None, None) ].
Proof. by vm_compute. Qed.

(** ** Sums of a column *)

Section qsum_facts.
Context {A : Type}.

Lemma qsum_cons (f : A → Qc) (x : A) (l : list A) :
  qsum f (x :: l) = (f x + qsum f l)%Qc.
Proof. done. Qed.

Lemma qsum_perm (f : A → Qc) (l k : list A) :
  l ≡ₚ k → qsum f l = qsum f k.
Proof.
  induction 1 as [|x l k _ IH|x y l|l k m _ IH1 _ IH2]; simpl.
  - done.
  - by rewrite IH.
  - ring.
  - by rewrite IH1.
Qed.

Lemma qsum_sql (f : A → Qc) (l : list A) :
  Sql.coalesce0 (Sql.sum (f <$> l)) 0%Qc = qsum f l.
Proof.
  destruct l as [|x l]; [done|]. simpl. f_equal.
  induction l as [|y l IH]; simpl; [done|]. by rewrite IH.
Qed.
End qsum_facts.

(** ** C5: the maintenance-fee override *)

Lemma starts_with_spec (p s : string) :
  Sql.starts_with p s = true ↔ ∃ post, s = p +:+ post.
Proof.
  revert s. induction p as [|a p IH]; intros s; simpl.
  - split; [by exists s|done].
  - destruct s as [|b s].
    + split; [done|]. by intros (post & ?).
    + destruct (decide (a = b)) as [->|Hne].
      * rewrite IH. split.
        -- intros (post & ->). by exists post.
        -- intros (post & [= ->]). by exists post.
      * split; [done|]. intros (post & [= ? ?]). done.
Qed.

Lemma contains_spec (p s : string) :
  Sql.contains p s = true ↔ ∃ pre post, s = pre +:+ p +:+ post.
Proof.
  induction s as [|c s IH]; simpl.
  - rewrite orb_false_r, starts_with_spec. split.
    + intros (post & ?). by exists "", post.
    + intros ([|? ?] & post & ?); [by exists post|done].
  - rewrite orb_true_iff, starts_with_spec, IH. split.
    + intros [(post & ?)|(pre & post & ->)].
      * by exists "", post.
      * by exists (String c pre), post.
    + intros ([|c' pre] & post & Heq).
      * left. by exists post.
      * right. injection Heq as -> ->. by exists pre, post.
Qed.

Lemma nat_of_ascii_inj (a b : ascii) :
  nat_of_ascii a = nat_of_ascii b → a = b.
Proof.
  intros H.
  rewrite <-(ascii_nat_embedding a), <-(ascii_nat_embedding b).
  by rewrite H.
Qed.

Lemma nat_of_lower_ascii (c : ascii) :
  nat_of_ascii (Sql.lower_ascii c)
  = if (65 <=? nat_of_ascii c)%nat && (nat_of_ascii c <=? 90)%nat
    then (nat_of_ascii c + 32)%nat
    else nat_of_ascii c.
Proof.
  unfold Sql.lower_ascii.
  destruct ((65 <=? nat_of_ascii c)%nat && (nat_of_ascii c <=? 90)%nat)
    eqn:Hc; [|done].
  apply nat_ascii_embedding.
  apply andb_true_iff in Hc as [_ Hc%Nat.leb_le]. lia.
Qed.

(** Folding identifies exactly the letters that differ in case only. *)
Lemma lower_ascii_same_letter (a b : ascii) :
  Sql.lower_ascii a = Sql.lower_ascii b ↔ same_letter a b.
Proof.
  unfold same_letter. split.
  - intros H%(f_equal nat_of_ascii). rewrite !nat_of_lower_ascii in H.
    destruct (decide (nat_of_ascii a = nat_of_ascii b))
      as [Heq%nat_of_ascii_inj|Hne]; [by left|right].
    destruct (Nat.leb_spec 65 (nat_of_ascii a)),
             (Nat.leb_spec (nat_of_ascii a) 90),
             (Nat.leb_spec 65 (nat_of_ascii b)),
             (Nat.leb_spec (nat_of_ascii b) 90); simpl in H; lia.
  - intros Hab. apply nat_of_ascii_inj. rewrite !nat_of_lower_ascii.
    destruct Hab as [->|Hab]; [done|].
    destruct (Nat.leb_spec 65 (nat_of_ascii a)),
             (Nat.leb_spec (nat_of_ascii a) 90),
             (Nat.leb_spec 65 (nat_of_ascii b)),
             (Nat.leb_spec (nat_of_ascii b) 90); simpl; lia.
Qed.

Lemma lower_same_text (p s : string) :
  Sql.lower p = Sql.lower s ↔ same_text p s.
Proof.
  revert s. induction p as [|a p IH]; intros [|b s]; simpl; try done.
  rewrite <-IH, <-lower_ascii_same_letter. split.
  - by intros [= ? ?].
  - by intros [-> ->].
Qed.

Lemma lower_app (x y : string) :
  Sql.lower (x +:+ y) = Sql.lower x +:+ Sql.lower y.
Proof. induction x as [|c x IH]; simpl; [done|]. by rewrite IH. Qed.

(** A folded text splits where the text itself does. *)
Lemma lower_split (s x y : string) :
  Sql.lower s = x +:+ y →
  ∃ s1 s2, s = s1 +:+ s2 ∧ Sql.lower s1 = x ∧ Sql.lower s2 = y.
Proof.
  revert s. induction x as [|c x IH]; intros s Hs.
  - by exists "", s.
  - destruct s as [|b s]; [done|]. simpl in Hs.
    injection Hs as Hb Hs. destruct (IH s Hs) as (s1 & s2 & -> & H1 & H2).
    exists (String b s1), s2. simpl. by rewrite Hb, H1.
Qed.

(** The ILIKE of the query finds the marker exactly in the texts that
    contain it as the specification words it. *)
Lemma has_marker_ilike (t : transaction) :
  has_marker t
  ↔ Sql.ilike_contains (t_metadata t) maintenance_marker = true.
Proof.
  unfold has_marker, Sql.ilike_contains, maintenance_marker.
  destruct (t_metadata t) as [s|].
  - rewrite contains_spec. split.
    + intros (s' & pre & occ & post & [= <-] & -> & Hocc%lower_same_text).
      exists (Sql.lower pre), (Sql.lower post).
      by rewrite !lower_app, Hocc.
    + intros (pre & post & Hs).
      apply lower_split in Hs as (s1 & s23 & -> & _ & Hs).
      apply lower_split in Hs as (s2 & s3 & -> & Hocc & _).
      exists (s1 +:+ s2 +:+ s3), s1, s2, s3.
      split_and!; [done..|]. by apply lower_same_text.
  - split; [by intros (? & ? & ? & ? & ? & _)|done].
Qed.

Lemma effective_type_marked (t : transaction) :
  has_marker t → effective_type t = "maintenance_fee".
Proof. intros H%has_marker_ilike. unfold effective_type. by rewrite H. Qed.

Lemma effective_type_unmarked (t : transaction) :
  ¬ has_marker t → effective_type t = t_tx_type t.
Proof.
  rewrite has_marker_ilike. unfold effective_type.
  by destruct (Sql.ilike_contains _ _).
Qed.

(** The effective type is withdrawal for the unmarked transactions
    recorded as withdrawals and for no other. *)
Lemma effective_withdrawal (t : transaction) :
  effective_type t = "withdrawal"
  ↔ t_tx_type t = "withdrawal" ∧ ¬ has_marker t.
Proof.
  rewrite has_marker_ilike. unfold effective_type.
  destruct (Sql.ilike_contains _ _); split.
  - done.
  - intros [_ H]. by destruct H.
  - intros ?. split; [done|]. by intros [=].
  - by intros [? _].
Qed.

Lemma asset_group_of_transaction db s e t :
  t ∈ transactions db → qualifies db t → ts_between s e (t_updated_at t) →
  ∃ rs, (asset_label db t, rs) ∈ Asset.groups db s e.
Proof.
  intros Ht Hq Hw. eexists. apply asset_groups_elem. split; [|done].
  eexists. split; [apply asset_rows_elem; eauto|done].
Qed.

(** The SUM of the query over a column is the total of the column. *)
Lemma sum_adds_up (float64 : Qc → Qc) (col : transaction → Qc)
    (l : list transaction) :
  adds_up float64 (Sql.sum (col <$> l)) col l.
Proof.
  unfold adds_up. destruct l as [|t l]; [done|].
  rewrite <-(qsum_sql col (t :: l)). done.
Qed.

(** C5: a transaction whose metadata text contains the marker as a
    case-insensitive substring has effective type maintenance_fee whatever
    its raw type; otherwise its effective type is its raw type.  So the
    transactions behind the withdrawal figures are the qualifying
    in-window transactions recorded as withdrawals that do not carry the
    marker.  A qualifying in-window transaction with the marker is not
    among them: the withdrawal counts and the returned withdrawal sums in
    both currencies, overall and in the row of its asset type, range over
    the others only; and the returned maintenance_fees_ghs of that row is
    the total of its local-currency amount and the amounts of the other
    fee transactions of the group. *)
Theorem C5_maintenance_fee_override :
  (∀ t, has_marker t → effective_type t = "maintenance_fee")
  ∧ (∀ t, ¬ has_marker t → effective_type t = t_tx_type t)
  ∧ (∀ db s e t,
       t ∈ counted db s e "withdrawal"
       ↔ t ∈ transactions db ∧ qualifies db t
         ∧ ts_between s e (t_updated_at t)
         ∧ t_tx_type t = "withdrawal" ∧ ¬ has_marker t)
  ∧ (∀ float64 db s e t,
       t ∈ transactions db → qualifies db t →
       ts_between s e (t_updated_at t) → has_marker t →
       let m := General.common (General.load_general_metrics db s e) in
       let label := asset_label db t in
       (t ∉ counted db s e "withdrawal")
       ∧ withdrawal_count m = length (counted db s e "withdrawal")
       ∧ adds_up float64 (withdrawal_value_ghs m) t_amount
           (counted db s e "withdrawal")
       ∧ adds_up float64 (withdrawal_value_usd m) t_usd_amount
           (counted db s e "withdrawal")
       ∧ (∃ am, am ∈ Asset.load_asset_metrics db s e
                ∧ Asset.am_asset_type am = label)
       ∧ (∀ am, am ∈ Asset.load_asset_metrics db s e →
            Asset.am_asset_type am = label →
            (t ∉ counted_in db s e label "withdrawal")
            ∧ withdrawal_count (Asset.am_metrics am)
              = length (counted_in db s e label "withdrawal")
            ∧ adds_up float64 (withdrawal_value_ghs (Asset.am_metrics am))
                t_amount (counted_in db s e label "withdrawal")
            ∧ adds_up float64 (withdrawal_value_usd (Asset.am_metrics am))
                t_usd_amount (counted_in db s e label "withdrawal")
            ∧ ∃ others,
                counted_in db s e label "maintenance_fee" ≡ₚ t :: others
                ∧ read_value float64 (Asset.maintenance_fees_ghs am)
                  = Some (float64 (t_amount t + qsum t_amount others)%Qc))).
Proof.
  split_and!; [apply effective_type_marked|apply effective_type_unmarked| |].
  { intros db s e t. rewrite counted_elem, effective_withdrawal. tauto. }
  intros float64 db s e t Ht Hq Hw Hm. cbv zeta.
  pose proof (effective_type_marked t Hm) as Hty.
  assert (Hnot : t ∉ counted db s e "withdrawal").
  { intros (_ & _ & _ & Hty')%counted_elem. congruence. }
  split_and!; [done|apply (count_typed db), general_typed|..].
  - simpl.
    rewrite (sum_of_typed ghs_amount t_amount db "withdrawal" _ _
               (λ _, eq_refl) (general_typed db s e "withdrawal")).
    apply sum_adds_up.
  - simpl.
    rewrite (sum_of_typed usd_amount t_usd_amount db "withdrawal" _ _
               (λ _, eq_refl) (general_typed db s e "withdrawal")).
    apply sum_adds_up.
  - destruct (asset_group_of_transaction db s e t Ht Hq Hw) as [rs Hg].
    exists (Asset.select_group s e (asset_label db t, rs)).
    split; [|done]. apply load_asset_metrics_elem. eauto.
  - intros am (g & rs & Hg & ->)%load_asset_metrics_elem Hlabel.
    simpl in Hlabel. subst g. split_and!.
    + by intros [? _]%counted_in_elem.
    + by apply (count_typed db), group_typed.
    + simpl.
      rewrite (sum_of_typed ghs_amount t_amount db "withdrawal" _ _
                 (λ _, eq_refl) (group_typed db s e _ _ "withdrawal" Hg)).
      apply sum_adds_up.
    + simpl.
      rewrite (sum_of_typed usd_amount t_usd_amount db "withdrawal" _ _
                 (λ _, eq_refl) (group_typed db s e _ _ "withdrawal" Hg)).
      apply sum_adds_up.
    + assert (Hin : t ∈ counted_in db s e (asset_label db t)
                          "maintenance_fee").
      { apply counted_in_elem. split; [|done]. by apply counted_elem. }
      apply elem_of_Permutation in Hin as [others Hperm].
      exists others. split; [done|]. simpl.
      rewrite (sum_of_typed ghs_amount t_amount db "maintenance_fee" _ _
                 (λ _, eq_refl)
                 (group_typed db s e _ _ "maintenance_fee" Hg)).
      pose proof (sum_adds_up float64 t_amount
                    (counted_in db s e (asset_label db t)
                       "maintenance_fee")) as Hsum.
      unfold adds_up in Hsum.
      destruct (counted_in db s e (asset_label db t) "maintenance_fee")
        as [|t0 l0] eqn:Hl.
      { by apply Permutation_nil_cons in Hperm. }
      rewrite Hsum, (qsum_perm _ _ _ Hperm). done.
Qed.

Lemma C5_witness :
  (effective_type Samples.fee_in_capitals = "maintenance_fee"
   ∧ effective_type Samples.plain_withdrawal = "withdrawal")
  ∧ (let m := General.common
                (General.load_general_metrics
                   Samples.fees_and_withdrawal 0 10) in
     withdrawal_count m = 1%nat
     ∧ (this <$> withdrawal_value_ghs m) = Some (30 # 1)%Q)
  ∧ (∃ am, am ∈ Asset.load_asset_metrics Samples.fees_and_withdrawal 0 10
           ∧ (this <$> Asset.maintenance_fees_ghs am) = Some (12 # 1)%Q
           ∧ ∃ others,
               counted_in Samples.fees_and_withdrawal 0 10
                 (Some "goal savings") "maintenance_fee"
               ≡ₚ Samples.fee_in_capitals :: others
               ∧ read_value id (Asset.maintenance_fees_ghs am)
                 = Some (t_amount Samples.fee_in_capitals
                         + qsum t_amount others)%Qc).
Proof.
  assert (Hm : has_marker Samples.fee_in_capitals).
  { exists "MONTHLY MAINTENANCE FEE DEDUCTION", "",
      "MONTHLY MAINTENANCE FEE DEDUCTION", "".
    split_and!; [reflexivity..|].
    simpl. unfold same_letter.
    repeat split; (by left) || (right; vm_compute; lia). }
  assert (Hn : ¬ has_marker Samples.plain_withdrawal).
  { rewrite has_marker_ilike. by vm_compute. }
  assert (H1 : ∀ A (x : A) l, head l = Some x → x ∈ l).
  { intros A x [|y l]; [done|]. intros [= ->]. left. }
  pose proof (H1 _ _ (Asset.load_asset_metrics
                        Samples.fees_and_withdrawal 0 10) eq_refl) as Hin.
  split_and!.
  - exact (proj1 C5_maintenance_fee_override _ Hm).
  - exact (proj1 (proj2 C5_maintenance_fee_override) _ Hn).
  - by vm_compute.
  - eexists. split; [exact Hin|]. split; [by vm_compute|].
    assert (Hel : Samples.fee_in_capitals
                  ∈ transactions Samples.fees_and_withdrawal).
    { simpl. do 2 right. left. }
    assert (Hq : qualifies Samples.fees_and_withdrawal
                   Samples.fee_in_capitals) by (by vm_compute).
    assert (Hw : ts_between 0 10 (t_updated_at Samples.fee_in_capitals))
      by (by vm_compute).
    pose proof (proj2 (proj2 (proj2 C5_maintenance_fee_override))
                  id Samples.fees_and_withdrawal 0 10 Samples.fee_in_capitals
                  Hel Hq Hw Hm) as H.
    cbv zeta in H. destruct H as (_ & _ & _ & _ & _ & H).
    exact (proj2 (proj2 (proj2 (proj2 (H _ Hin eq_refl))))).
Defined.

(** ** C6: asset types outside the fee schedule *)

(** C6: for every window, a row of the asset metrics whose label is not
    one of the labels of the fee schedule (or is absent) has estimated
    revenue 0; the CASE has an ELSE branch, so there is a value for every
    label. *)
Theorem C6_unlisted_asset_type_no_revenue (db : database) (s e : Z)
    (am : Asset.asset_metrics) :
  am ∈ Asset.load_asset_metrics db s e →
  (∀ l, Asset.am_asset_type am = Some l → l ∉ Asset.fee_table_labels) →
  Asset.estimated_revenue am = 0%Qc.
Proof.
  intros (g & rs & Hg & ->)%load_asset_metrics_elem Hl. simpl in *.
  unfold Asset.estimated_revenue_of. destruct g as [l|].
  - specialize (Hl l eq_refl). unfold Asset.fee_table_labels in Hl.
    repeat case_decide; try reflexivity; simpl in *; subst;
      exfalso; apply Hl; solve [repeat constructor].
  - repeat case_decide; done.
Qed.

Lemma C6_witness :
  ∃ am, am ∈ Asset.load_asset_metrics Samples.unlisted_asset 0 10
        ∧ Asset.am_asset_type am = Some "Treasury bills"
        ∧ Asset.estimated_revenue am = 0%Qc.
Proof.
  assert (H1 : ∀ A (x : A) l, head l = Some x → x ∈ l).
  { intros A x [|y l]; [done|]. intros [= ->]. left. }
  pose proof (H1 _ _ (Asset.load_asset_metrics Samples.unlisted_asset 0 10)
                eq_refl) as Hin.
  eexists. split; [exact Hin|]. split; [reflexivity|].
  apply (C6_unlisted_asset_type_no_revenue Samples.unlisted_asset 0 10 _ Hin).
  intros l [= <-]. unfold Asset.fee_table_labels.
  intros Hl. repeat (apply elem_of_cons in Hl as [Hl|Hl]; [done|]).
  by apply elem_of_nil in Hl.
Defined.

(** ** C9: a window without qualifying transactions *)

Lemma general_rows_empty db s e :
  (∀ t, t ∈ transactions db → qualifies db t →
        ¬ ts_between s e (t_updated_at t)) →
  General.rows db s e = [].
Proof.
  intros Hnone. destruct (General.rows db s e) as [|r l] eqn:Hr; [done|].
  assert (Hin : r ∈ General.rows db s e) by (rewrite Hr; left).
  apply general_rows_elem in Hin as (t & Ht & Hq & Hw & _).
  by destruct (Hnone t Ht Hq).
Qed.

(** C9: for every window with no qualifying transaction, the general
    metrics have every count equal to 0 and every sum, net position and
    average absent; the averages are SQL AVG over no rows, which is null
    without any division, and [fmt] shows each absent amount as 0.00. *)
Theorem C9_empty_window (db : database) (s e : Z) :
  (∀ t, t ∈ transactions db → qualifies db t →
        ¬ ts_between s e (t_updated_at t)) →
  General.load_general_metrics db s e
  = {| General.asset_type_count := 0;
       General.total_withdrawers := 0;
       General.common := no_activity |}
  ∧ ∀ render,
      fmt render
      <$> money_fields (General.common (General.load_general_metrics db s e))
      = replicate 10 "0.00".
Proof.
  intros Hnone. unfold General.load_general_metrics.
  rewrite (general_rows_empty db s e Hnone). by split.
Qed.

Lemma C9_witness :
  General.load_general_metrics Samples.early_and_late 50 60
  = {| General.asset_type_count := 0;
       General.total_withdrawers := 0;
       General.common := no_activity |}.
Proof.
  refine (proj1 (C9_empty_window Samples.early_and_late 50 60 _)).
  intros t Ht _. unfold ts_between, midnight.
  repeat (apply elem_of_cons in Ht as [->|Ht]; [simpl; lia|]).
  by apply elem_of_nil in Ht.
Defined.

(** ** C10: the asset-type listing covers the asset metrics *)

Lemma get_asset_types_elem db s e (g : option string) :
  g ∈ get_asset_types db s e
  ↔ ∃ t, t ∈ transactions db ∧ listed db s e t ∧ asset_label db t = g.
Proof.
  unfold get_asset_types.
  rewrite merge_sort_Permutation, elem_of_remove_dups, list_elem_of_fmap.
  split.
  - intros (t & -> & [Hl Ht]%list_elem_of_filter). eauto.
  - intros (t & Ht & Hl & <-). exists t. split; [done|].
    by apply list_elem_of_filter.
Qed.

Lemma qualifying_is_listed db s e t :
  qualifies db t → ts_between s e (t_updated_at t) →
  is_Some (asset_label db t) → listed db s e t.
Proof. intros (Hs & _) Hw Hl. by split_and!. Qed.

(** C10: for every window, every non-absent asset-type label of the asset
    metrics is in the list of get_asset_types, whose filter (status and
    window) is implied by the filter of the asset metrics; the converse
    inclusion fails on a database whose only customer is restricted. *)
Theorem C10_metric_labels_are_listed :
  (∀ db s e t, qualifies db t → ts_between s e (t_updated_at t) →
               is_Some (asset_label db t) → listed db s e t)
  ∧ (∀ db s e am l, am ∈ Asset.load_asset_metrics db s e →
                    Asset.am_asset_type am = Some l →
                    Some l ∈ get_asset_types db s e)
  ∧ (∃ db s e l, Some l ∈ get_asset_types db s e
                 ∧ ∀ am, am ∈ Asset.load_asset_metrics db s e →
                         Asset.am_asset_type am ≠ Some l).
Proof.
  split_and!.
  - apply qualifying_is_listed.
  - intros db s e am l (g & rs & Hg & ->)%load_asset_metrics_elem Hl.
    simpl in Hl. subst g.
    apply asset_groups_elem in Hg as [(r & Hr & Hlab) _].
    apply asset_rows_elem in Hr as (t & Ht & Hq & Hw & ->). simpl in Hlab.
    apply get_asset_types_elem. exists t. split_and!; [done| |done].
    apply qualifying_is_listed; [done..|]. by rewrite Hlab.
  - exists Samples.restricted_only, 0, 10, "goal savings". split.
    + vm_compute. left.
    + intros am Ham. vm_compute in Ham. by apply elem_of_nil in Ham.
Qed.

Lemma C10_witness :
  ∃ am, am ∈ Asset.load_asset_metrics Samples.old_depositor 0 45
        ∧ Asset.am_asset_type am = Some "goal savings"
        ∧ Some "goal savings" ∈ get_asset_types Samples.old_depositor 0 45.
Proof.
  assert (H1 : ∀ A (x : A) l, head l = Some x → x ∈ l).
  { intros A x [|y l]; [done|]. intros [= ->]. left. }
  pose proof (H1 _ _ (Asset.load_asset_metrics Samples.old_depositor 0 45)
                eq_refl) as Hin.
  eexists. split; [exact Hin|]. split; [reflexivity|].
  exact (proj1 (proj2 C10_metric_labels_are_listed)
           Samples.old_depositor 0 45 _ "goal savings" Hin eq_refl).
Defined.

(** ** C8: the transaction trend *)

Lemma trend_sorted db s e g :
  Sorted Trend.period_asc (Trend.load_transaction_trend db s e g).
Proof. apply Sorted_merge_sort, _. Qed.

Lemma trend_point_elem db s e g p :
  p ∈ Trend.load_transaction_trend db s e g
  ↔ (∃ t, t ∈ transactions db ∧ Trend.selected db s e t
          ∧ Trend.date_trunc g (t_updated_at t) = Trend.period p
          ∧ t_tx_type t = Trend.tx_type p)
    ∧ Trend.total_amount p
      = Sql.sum (t_amount <$>
                 filter (λ t, Trend.selected db s e t
                              ∧ Trend.date_trunc g (t_updated_at t)
                                = Trend.period p
                              ∧ t_tx_type t = Trend.tx_type p)
                   (transactions db)).
Proof.
  unfold Trend.load_transaction_trend, Trend.groups.
  rewrite merge_sort_Permutation, list_elem_of_fmap. split.
  - intros ([[d ty] l] & -> & [Hk ->]%elem_of_group_by). simpl.
    apply list_elem_of_fmap in Hk as (t & [= -> ->] & [Hs Ht]%list_elem_of_filter).
    split; [eauto|]. rewrite list_filter_filter. do 2 f_equal.
    apply list_filter_iff. intros t'. split.
    + intros [[= -> ->] ?]. done.
    + intros (? & -> & ->). done.
  - intros [(t & Ht & Hs & Hd & Hty) Hsum]. destruct p as [d ty a].
    simpl in *. subst d ty.
    exists ((Trend.date_trunc g (t_updated_at t), t_tx_type t),
            filter (λ t', (Trend.date_trunc g (t_updated_at t'), t_tx_type t')
                          = (Trend.date_trunc g (t_updated_at t), t_tx_type t))
              (filter (Trend.selected db s e) (transactions db))).
    split.
    + simpl. f_equal. rewrite Hsum, list_filter_filter. do 2 f_equal.
      apply list_filter_iff. intros t'. split.
      * intros (? & -> & ->). done.
      * intros [[= -> ->] ?]. done.
    + apply elem_of_group_by. split; [|done].
      apply list_elem_of_fmap. exists t. split; [done|].
      by apply list_elem_of_filter.
Qed.

(** C8, at the failing input: a successful fee deduction of 5 recorded
    with raw type withdrawal, marked in its metadata.  Its effective type
    is maintenance_fee and the general metrics count no withdrawal, but
    the trend reports the 5 under the raw type withdrawal. *)
Lemma C8_trend_reports_raw_type :
  effective_type Samples.fee_deduction = "maintenance_fee"
  ∧ withdrawal_count
      (General.common (General.load_general_metrics Samples.with_fee 0 10))
    = 0%nat
  ∧ (λ p, (Trend.period p, Trend.tx_type p, this <$> Trend.total_amount p))
    <$> Trend.load_transaction_trend Samples.with_fee 0 10 Trend.Month
    = [(0, "withdrawal", Some (5 # 1)%Q)].
Proof. by vm_compute. Qed.

(** ** C7: rows without an asset-type label *)

Lemma sum_list_with_ext {A} (f g : A → nat) (l : list A) :
  (∀ x, f x = g x) → sum_list_with f l = sum_list_with g l.
Proof.
  intros Hfg. induction l as [|x l IH]; [done|].
  simpl. rewrite Hfg. f_equal. exact IH.
Qed.

Lemma sum_list_with_fmap {A B} (f : B → nat) (g : A → B) (l : list A) :
  sum_list_with f (g <$> l) = sum_list_with (λ x, f (g x)) l.
Proof. induction l as [|x l IH]; [done|]. simpl. f_equal. exact IH. Qed.

Lemma sum_list_with_add {A} (f g : A → nat) (l : list A) :
  sum_list_with (λ x, f x + g x)%nat l
  = (sum_list_with f l + sum_list_with g l)%nat.
Proof.
  induction l as [|x l IH]; [done|].
  change (f x + g x + sum_list_with (λ x, f x + g x) l
          = f x + sum_list_with f l + (g x + sum_list_with g l))%nat.
  rewrite IH. lia.
Qed.

Section partition.
Context {A K : Type} `{EqDecision K}.
Variable key : A → K.

Lemma indicator_absent (k0 : K) (ks : list K) :
  k0 ∉ ks →
  sum_list_with (λ k, if decide (k0 = k) then 1 else 0)%nat ks = 0%nat.
Proof.
  induction ks as [|k ks IH]; [done|].
  rewrite not_elem_of_cons. intros [Hne Hks]. simpl.
  rewrite decide_False by done. by apply IH.
Qed.

Lemma indicator_once (k0 : K) (ks : list K) :
  NoDup ks → k0 ∈ ks →
  sum_list_with (λ k, if decide (k0 = k) then 1 else 0)%nat ks = 1%nat.
Proof.
  induction ks as [|k ks IH]; [by intros _ ?%elem_of_nil|].
  rewrite NoDup_cons. intros [Hk Hnd] [->|Hin]%elem_of_cons; simpl.
  - rewrite decide_True by done. f_equal. by apply indicator_absent.
  - rewrite decide_False by (intros ->; done). by apply IH.
Qed.

(** The groups of a GROUP BY partition the rows. *)
Lemma partition_count (ks : list K) (l : list A) :
  NoDup ks → (∀ x, x ∈ l → key x ∈ ks) →
  sum_list_with (λ k, length (filter (λ x, key x = k) l)) ks = length l.
Proof.
  intros Hnd. induction l as [|x l IH]; intros Hcov.
  - clear. induction ks as [|k ks IHks]; [done|]. exact IHks.
  - rewrite (sum_list_with_ext _
               (λ k, (if decide (key x = k) then 1 else 0)
                     + length (filter (λ y, key y = k) l))%nat).
    + rewrite sum_list_with_add, indicator_once, IH; [done| |done|].
      * intros y Hy. apply Hcov. by right.
      * apply Hcov. left.
    + intros k. rewrite filter_cons. by destruct (decide (key x = k)).
Qed.
End partition.

Lemma label_typed db s e g ty :
  bd <$> filter (type_is ty)
           (filter (λ r, asset_type (bd r) = g) (Asset.rows db s e))
  = base_of db <$> counted_in db s e g ty.
Proof.
  rewrite typed_rows, labelled_rows, asset_rows_bd, filter_swap.
  rewrite windowed_typed_base, filter_fmap. done.
Qed.

Lemma asset_labels db s e :
  Asset.am_asset_type <$> Asset.asset_metrics_cte db s e
  = remove_dups ((λ r, asset_type (bd r)) <$> Asset.rows db s e).
Proof.
  unfold Asset.asset_metrics_cte, Asset.groups.
  rewrite <-list_fmap_compose, <-group_by_keys. done.
Qed.

Lemma asset_labels_cover db s e ty t :
  t ∈ counted db s e ty →
  asset_label db t
  ∈ remove_dups ((λ r, asset_type (bd r)) <$> Asset.rows db s e).
Proof.
  intros (Ht & Hq & Hw & _)%counted_elem.
  rewrite elem_of_remove_dups, list_elem_of_fmap.
  eexists. split; [|apply asset_rows_elem; eauto]. done.
Qed.

(** A typed count of the whole window is the sum of the typed counts of
    the asset-type groups. *)
Lemma typed_count_partition db s e ty (field : metrics → nat) :
  (∀ rows, field (select_metrics s e rows)
           = Sql.count (filter (type_is ty) rows)) →
  field (General.common (General.load_general_metrics db s e))
  = sum_list_with (λ am, field (Asset.am_metrics am))
      (Asset.load_asset_metrics db s e).
Proof.
  intros Hfield. unfold Asset.load_asset_metrics.
  rewrite merge_sort_Permutation.
  unfold Asset.asset_metrics_cte, Asset.groups, Sql.group_by.
  rewrite !sum_list_with_fmap. simpl.
  rewrite (sum_list_with_ext _
             (λ k, length (filter (λ t, asset_label db t = k)
                             (counted db s e ty)))).
  - rewrite (partition_count (asset_label db)).
    + rewrite Hfield. apply (count_typed db), general_typed.
    + apply NoDup_remove_dups.
    + intros t. apply asset_labels_cover.
  - intros k. rewrite Hfield. apply (count_typed db), label_typed.
Qed.

(** The asset metrics have a row with an absent label exactly when some
    qualifying in-window transaction has no label: GROUP BY forms a group
    for the null label and no clause removes it. *)
Lemma absent_label_row_iff (db : database) (s e : Z) :
  None ∈ Asset.am_asset_type <$> Asset.load_asset_metrics db s e
  ↔ ∃ t, t ∈ transactions db ∧ qualifies db t
         ∧ ts_between s e (t_updated_at t) ∧ asset_label db t = None.
Proof.
  unfold Asset.load_asset_metrics.
  rewrite merge_sort_Permutation, asset_labels.
  rewrite elem_of_remove_dups, list_elem_of_fmap. split.
  - intros (r & Hlab & (t & Ht & Hq & Hw & ->)%asset_rows_elem).
    exists t. by split_and!.
  - intros (t & Ht & Hq & Hw & Hlab).
    eexists. split; [|apply asset_rows_elem; eauto]. done.
Qed.

(** C7 at [Samples.unassigned_asset] with the window of days 0 to 10: the
    only transaction is a deposit into an investment plan with no asset
    assigned, so its label is absent.  The asset metrics return one row,
    with the absent label and the deposit in it, where the specification
    has no such row; the two other per-asset queries leave the absent
    label out (they filter on [asset_type IS NOT NULL]): the listing of
    asset types and the users by asset type are empty.  The deposit
    counts in the overall figures. *)
Theorem C7_absent_label_row :
  let db := Samples.unassigned_asset in
  (λ am, (Asset.am_asset_type am, deposit_count (Asset.am_metrics am)))
  <$> Asset.load_asset_metrics db 0 10
  = [ (None, 1%nat) ]
  ∧ get_asset_types db 0 10 = []
  ∧ UsersByAsset.load_total_users_by_asset_type db 0 10 = []
  ∧ deposit_count (General.common (General.load_general_metrics db 0 10))
    = 1%nat.
Proof. by vm_compute. Qed.

(** The deposit and withdrawal counts of the general metrics are the sums
    of the counts of all rows of the asset metrics: every counted
    transaction falls into exactly one asset-type group, the group
    without a label included. *)
Theorem counts_add_up_over_asset_types (db : database) (s e : Z) :
  deposit_count (General.common (General.load_general_metrics db s e))
  = sum_list_with (λ am, deposit_count (Asset.am_metrics am))
      (Asset.load_asset_metrics db s e)
  ∧ withdrawal_count (General.common (General.load_general_metrics db s e))
    = sum_list_with (λ am, withdrawal_count (Asset.am_metrics am))
        (Asset.load_asset_metrics db s e).
Proof.
  split.
  - by apply (typed_count_partition db s e "deposit").
  - by apply (typed_count_partition db s e "withdrawal").
Qed.

(** ** get_date_range *)

Lemma day_of_month_pos (d : Z) : 1 ≤ Trend.day_of_month d.
Proof.
  unfold Trend.day_of_month.
  Z.to_euclidean_division_equations. lia.
Qed.

Lemma weekday_range (d : Z) : 0 ≤ DateRange.weekday d ≤ 6.
Proof. unfold DateRange.weekday. Z.to_euclidean_division_equations. lia. Qed.

(** From 2022-01-01 on, whatever the option (a quick filter or any other
    text), the range is not reversed and does not reach past today. *)
Theorem date_range_well_formed (option : string) (today : Z) :
  DateRange.date_2022_01_01 ≤ today →
  (DateRange.get_date_range option today).1
  ≤ (DateRange.get_date_range option today).2
  ∧ (DateRange.get_date_range option today).2 ≤ today.
Proof.
  intros Htoday.
  pose proof (weekday_range today).
  pose proof (day_of_month_pos today).
  pose proof (day_of_month_pos (DateRange.replace_day_1 today - 1)).
  unfold DateRange.get_date_range, DateRange.replace_day_1,
    DateRange.date_2022_01_01 in *.
  repeat case_decide; simpl; lia.
Qed.

Lemma date_range_well_formed_witness :
  (DateRange.get_date_range "Last Month" 20000).1
  ≤ (DateRange.get_date_range "Last Month" 20000).2
  ∧ (DateRange.get_date_range "Last Month" 20000).2 ≤ 20000.
Proof.
  apply (date_range_well_formed "Last Month" 20000). by vm_compute.
Defined.

(** "Last Week" is the Monday-to-Sunday week that ended before today: it
    starts on a Monday, ends six days later on a Sunday, and that Sunday
    is at most seven days back. *)
Theorem last_week_is_monday_to_sunday (today : Z) :
  let r := DateRange.get_date_range "Last Week" today in
  DateRange.weekday r.1 = 0
  ∧ DateRange.weekday r.2 = 6
  ∧ r.2 = r.1 + 6
  ∧ today - 7 ≤ r.2 < today.
Proof.
  simpl. unfold DateRange.weekday.
  Z.to_euclidean_division_equations. lia.
Qed.

(** "This Week" starts on a Sunday: today when today is a Sunday,
    otherwise the Sunday before, and that Sunday is also the last day of
    "Last Week". *)
Theorem this_week_starts_on_sunday (today : Z) :
  let this_week := DateRange.get_date_range "This Week" today in
  let last_week := DateRange.get_date_range "Last Week" today in
  DateRange.weekday this_week.1 = 6
  ∧ this_week.2 = today
  ∧ today - 6 ≤ this_week.1 ≤ today
  ∧ (DateRange.weekday today = 6 → this_week.1 = today)
  ∧ (DateRange.weekday today ≠ 6 → this_week.1 = last_week.2).
Proof.
  simpl. unfold DateRange.weekday.
  case_decide; simpl; Z.to_euclidean_division_equations; lia.
Qed.


(** ** load_user_counts *)

Lemma like_here_literal (a : ascii) (p s : string) :
  a ≠ "_"%char →
  Like.here (String a p) s = true
  ↔ ∃ s', s = String a s' ∧ Like.here p s' = true.
Proof.
  intros Ha. destruct s as [|b s]; simpl.
  - split; [done|]. by intros (? & ? & _).
  - rewrite decide_False by done. rewrite andb_true_iff. split.
    + intros [->%bool_decide_eq_true Hp]. eauto.
    + intros (s' & [= -> ->] & Hp). split; [|done].
      by apply bool_decide_eq_true.
Qed.

Lemma like_here_wildcard (p s : string) :
  Like.here (String "_" p) s = true
  ↔ ∃ b s', s = String b s'
            ∧ Like.here p (Like.skip_continuation s') = true.
Proof.
  destruct s as [|b s]; simpl.
  - split; [done|]. by intros (? & ? & ? & _).
  - split.
    + intros Hp. eauto.
    + by intros (b' & s' & [= -> ->] & Hp).
Qed.

Lemma like_here_nil (s : string) : Like.here "" s = true.
Proof. by destruct s. Qed.

Lemma like_anywhere_spec (p s : string) :
  Like.anywhere p s = true
  ↔ ∃ pre rest, s = pre +:+ rest ∧ Like.here p rest = true.
Proof.
  induction s as [|c s IH]; simpl.
  - rewrite orb_false_r. split.
    + intros H. by exists "", "".
    + intros ([|? ?] & rest & Heq & H); [|done].
      change ("" = rest) in Heq. by subst.
  - rewrite orb_true_iff, IH. split.
    + intros [H|(pre & rest & -> & H)].
      * by exists "", (String c s).
      * by exists (String c pre), rest.
    + intros ([|c' pre] & rest & Heq & H).
      * left. change (String c s = rest) in Heq. by subst.
      * right. change (String c s = String c' (pre +:+ rest)) in Heq.
        injection Heq as -> ->. eauto.
Qed.

(** Stepping over a character stops at the next byte that starts one. *)
Lemma skip_continuation_app (more : string) (b : ascii) (rest : string) :
  continuation_bytes more → Like.continuation b = false →
  Like.skip_continuation (more +:+ String b rest) = String b rest.
Proof.
  intros Hmore Hb. induction more as [|c more IH]; simpl.
  - by rewrite Hb.
  - destruct Hmore as [-> Hmore]. by apply IH.
Qed.

Lemma plain_ascii_app (x y : string) :
  plain_ascii (x +:+ y) ↔ plain_ascii x ∧ plain_ascii y.
Proof.
  induction x as [|c x IH]; simpl; [tauto|]. rewrite IH. tauto.
Qed.

Lemma plain_ascii_lower (s : string) :
  plain_ascii s → plain_ascii (Sql.lower s).
Proof.
  induction s as [|c s IH]; simpl; [done|]. intros [Hc Hs].
  split; [|by apply IH]. rewrite nat_of_lower_ascii.
  destruct (Nat.leb_spec 65 (nat_of_ascii c)),
           (Nat.leb_spec (nat_of_ascii c) 90); simpl; lia.
Qed.

(** In a plain ASCII text every byte is a character. *)
Lemma skip_continuation_plain (s : string) :
  plain_ascii s → Like.skip_continuation s = s.
Proof.
  destruct s as [|b s]; simpl; [done|]. intros [Hb _].
  unfold Like.continuation.
  destruct (Nat.leb_spec 128 (nat_of_ascii b)); [lia|done].
Qed.

(** The KYC filter [ILIKE '%kyc_completed%']: an absent metadata never
    matches.  A text matches whenever it contains, letters compared
    without regard to case, "kyc", then any one character (of one byte or
    of several), then "completed": the underscore of the pattern is the
    LIKE wildcard, so "KYC-Completed" matches as "kyc_completed" does,
    while "kyccompleted" does not.  A plain ASCII text matches in that
    case only. *)
Theorem kyc_pattern_underscore_is_wildcard :
  Like.ilike None "kyc_completed" = false
  ∧ (∀ s pre c more post,
       continuation_bytes more →
       Sql.lower s
       = pre +:+ "kyc" +:+ String c (more +:+ "completed" +:+ post) →
       Like.ilike (Some s) "kyc_completed" = true)
  ∧ (∀ s, plain_ascii s →
       (Like.ilike (Some s) "kyc_completed" = true
        ↔ ∃ pre c post,
            Sql.lower s = pre +:+ "kyc" +:+ String c ("completed" +:+ post)))
  ∧ Like.ilike (Some "status: KYC-Completed") "kyc_completed" = true
  ∧ Like.ilike (Some "kycécompleted") "kyc_completed" = true
  ∧ Like.ilike (Some "kyccompleted") "kyc_completed" = false.
Proof.
  assert (Hif : ∀ s pre c more post,
            continuation_bytes more →
            Sql.lower s
            = pre +:+ "kyc" +:+ String c (more +:+ "completed" +:+ post) →
            Like.ilike (Some s) "kyc_completed" = true).
  { intros s pre c more post Hmore Hs. unfold Like.ilike.
    apply like_anywhere_spec.
    exists pre, ("kyc" +:+ String c (more +:+ "completed" +:+ post)).
    split; [done|].
    change (Sql.lower "kyc_completed") with "kyc_completed".
    do 3 (apply like_here_literal; [done|]; eexists; split; [reflexivity|]).
    apply like_here_wildcard. eexists _, _. split; [reflexivity|].
    change ("completed" +:+ post) with (String "c" ("ompleted" +:+ post)).
    rewrite skip_continuation_app by done.
    do 9 (apply like_here_literal; [done|]; eexists; split; [reflexivity|]).
    apply like_here_nil. }
  split_and!; [done|exact Hif| |by vm_compute..].
  intros s Hascii. split.
  - unfold Like.ilike. intros (pre & rest & Hs & Hm)%like_anywhere_spec.
    change (Sql.lower "kyc_completed") with "kyc_completed" in Hm.
    do 3 (apply like_here_literal in Hm as (? & -> & Hm); [|done]).
    apply like_here_wildcard in Hm as (c & rest & -> & Hm).
    assert (Hrest : plain_ascii rest).
    { apply plain_ascii_lower in Hascii. rewrite Hs in Hascii.
      apply plain_ascii_app in Hascii as [_ Hascii]. simpl in Hascii.
      tauto. }
    rewrite skip_continuation_plain in Hm by done.
    do 9 (apply like_here_literal in Hm as (? & -> & Hm); [|done]).
    exists pre, c. eexists. exact Hs.
  - intros (pre & c & post & Hs). by apply (Hif s pre c "" post).
Qed.

Lemma date_between_split s m e ts :
  s ≤ m + 1 → m ≤ e →
  (date_between s e ts
   ↔ date_between s m ts ∨ date_between (m + 1) e ts).
Proof. unfold date_between. lia. Qed.

Lemma date_between_disjoint s m e ts :
  date_between s m ts → ¬ date_between (m + 1) e ts.
Proof. unfold date_between. lia. Qed.

Lemma filter_split_length {A} (P Q R : A → Prop)
    `{∀ x, Decision (P x)} `{∀ x, Decision (Q x)} `{∀ x, Decision (R x)}
    (l : list A) :
  (∀ x, P x ↔ Q x ∨ R x) → (∀ x, Q x → ¬ R x) →
  length (filter P l) = (length (filter Q l) + length (filter R l))%nat.
Proof.
  intros Hsplit Hdisj. induction l as [|x l IH]; [done|].
  rewrite !filter_cons.
  pose proof (Hsplit x) as Hx. pose proof (Hdisj x) as Hd.
  destruct (decide (P x)) as [HP|HP], (decide (Q x)) as [HQ|HQ],
    (decide (R x)) as [HR|HR]; simpl; rewrite IH; try lia;
    exfalso; tauto.
Qed.

(** The two user counts add up over adjacent date ranges: counting days
    [start..mid] and days [mid+1..end] separately gives the counts of
    [start..end]; no user is lost or counted twice at the boundary. *)
Theorem user_counts_add_up (users : list user_row)
    (start_date mid end_date : Z) :
  start_date ≤ mid + 1 → mid ≤ end_date →
  (UserCounts.load_user_counts users start_date end_date).1
  = ((UserCounts.load_user_counts users start_date mid).1
     + (UserCounts.load_user_counts users (mid + 1) end_date).1)%nat
  ∧ (UserCounts.load_user_counts users start_date end_date).2
    = ((UserCounts.load_user_counts users start_date mid).2
       + (UserCounts.load_user_counts users (mid + 1) end_date).2)%nat.
Proof.
  intros Hs He. unfold UserCounts.load_user_counts, Sql.count. simpl. split.
  - apply filter_split_length.
    + intros u. by apply date_between_split.
    + intros u. apply date_between_disjoint.
  - apply filter_split_length.
    + intros u. unfold UserCounts.kyc.
      rewrite (date_between_split start_date mid end_date) by done. tauto.
    + intros u [_ H1] [_ H2].
      by apply (date_between_disjoint _ _ end_date _ H1).
Qed.

Lemma user_counts_add_up_witness :
  (UserCounts.load_user_counts
     [ registered_user 1 (3 * 86400 + 50) (5 * 86400)
         (Some "KYC-Completed") ] 0 10).2
  = (0 + 1)%nat.
Proof.
  exact (proj2 (user_counts_add_up _ 0 4 10 ltac:(lia) ltac:(lia))).
Defined.

(** ** load_total_users_by_asset_type and the Asset Breakdown page *)

Lemma windowed_base db s e :
  filter (in_window s e) (base_data db)
  = base_of db
    <$> filter (λ t, qualifies db t ∧ ts_between s e (t_updated_at t))
          (transactions db).
Proof.
  rewrite base_data_eq, filter_fmap, list_filter_filter. f_equal.
  apply list_filter_iff. intros t. unfold in_window. simpl. tauto.
Qed.

Lemma uba_selected_elem db s e t :
  t ∈ filter (UsersByAsset.selected db s e) (transactions db)
  ↔ t ∈ transactions db ∧ qualifies db t
    ∧ ts_between s e (t_updated_at t) ∧ is_Some (asset_label db t).
Proof. rewrite list_elem_of_filter. unfold UsersByAsset.selected. tauto. Qed.

Lemma uba_groups_elem db s e g l :
  (g, l) ∈ UsersByAsset.groups db s e
  ↔ (∃ t, t ∈ filter (UsersByAsset.selected db s e) (transactions db)
          ∧ asset_label db t = g)
    ∧ l = filter (λ t, asset_label db t = g)
            (filter (UsersByAsset.selected db s e) (transactions db)).
Proof.
  unfold UsersByAsset.groups. rewrite elem_of_group_by, list_elem_of_fmap.
  split.
  - intros [(t & -> & Ht) ->]. split; [eauto|done].
  - intros [(t & Ht & <-) ->]. split; [eauto|done].
Qed.

Lemma uba_elem db s e r :
  r ∈ UsersByAsset.load_total_users_by_asset_type db s e
  ↔ ∃ g l, (g, l) ∈ UsersByAsset.groups db s e
           ∧ r = {| UsersByAsset.uba_asset_type := g;
                    UsersByAsset.total_users
                      := length (UsersByAsset.user_ids db l) |}.
Proof.
  unfold UsersByAsset.load_total_users_by_asset_type.
  rewrite merge_sort_Permutation, list_elem_of_fmap. split.
  - intros ([g l] & -> & Hg). eauto.
  - intros (g & l & Hg & ->). by exists (g, l).
Qed.

Lemma uba_labels db s e :
  UsersByAsset.uba_asset_type
  <$> UsersByAsset.load_total_users_by_asset_type db s e
  ≡ₚ remove_dups (asset_label db
                  <$> filter (UsersByAsset.selected db s e)
                        (transactions db)).
Proof.
  unfold UsersByAsset.load_total_users_by_asset_type.
  rewrite merge_sort_Permutation. unfold UsersByAsset.groups.
  by rewrite <-list_fmap_compose, <-group_by_keys.
Qed.

Lemma asset_metrics_labels db s e :
  Asset.am_asset_type <$> Asset.load_asset_metrics db s e
  ≡ₚ remove_dups ((λ r, asset_type (bd r)) <$> Asset.rows db s e).
Proof.
  unfold Asset.load_asset_metrics.
  by rewrite merge_sort_Permutation, asset_labels.
Qed.

Lemma asset_metrics_label_elem db s e g :
  g ∈ Asset.am_asset_type <$> Asset.load_asset_metrics db s e
  ↔ ∃ t, t ∈ transactions db ∧ qualifies db t
         ∧ ts_between s e (t_updated_at t) ∧ asset_label db t = g.
Proof.
  rewrite asset_metrics_labels, elem_of_remove_dups, list_elem_of_fmap.
  split.
  - intros (r & -> & (t & Ht & Hq & Hw & ->)%asset_rows_elem). eauto.
  - intros (t & Ht & Hq & Hw & <-).
    eexists. split; [|apply asset_rows_elem; eauto]. done.
Qed.

Lemma uba_label_elem db s e g :
  g ∈ UsersByAsset.uba_asset_type
      <$> UsersByAsset.load_total_users_by_asset_type db s e
  ↔ ∃ t, t ∈ transactions db ∧ qualifies db t
         ∧ ts_between s e (t_updated_at t) ∧ asset_label db t = g
         ∧ is_Some g.
Proof.
  rewrite uba_labels, elem_of_remove_dups, list_elem_of_fmap. split.
  - intros (t & -> & (Ht & Hq & Hw & Hl)%uba_selected_elem).
    exists t. by split_and!.
  - intros (t & Ht & Hq & Hw & <- & Hl). exists t. split; [done|].
    by apply uba_selected_elem.
Qed.

(** The users-by-asset-type result has one row per label, none with an
    absent label, and its labels are exactly the non-absent labels of the
    asset metrics of the same window; all of them are offered by
    get_asset_types. *)
Theorem users_by_asset_labels (db : database) (s e : Z) :
  NoDup (UsersByAsset.uba_asset_type
         <$> UsersByAsset.load_total_users_by_asset_type db s e)
  ∧ (∀ r, r ∈ UsersByAsset.load_total_users_by_asset_type db s e →
          is_Some (UsersByAsset.uba_asset_type r))
  ∧ (∀ l, Some l ∈ UsersByAsset.uba_asset_type
                   <$> UsersByAsset.load_total_users_by_asset_type db s e
          ↔ Some l ∈ Asset.am_asset_type
                     <$> Asset.load_asset_metrics db s e)
  ∧ (∀ l, Some l ∈ UsersByAsset.uba_asset_type
                   <$> UsersByAsset.load_total_users_by_asset_type db s e
          → Some l ∈ get_asset_types db s e).
Proof.
  split_and!.
  - rewrite uba_labels. apply NoDup_remove_dups.
  - intros r Hr.
    assert (Hl : UsersByAsset.uba_asset_type r
                 ∈ UsersByAsset.uba_asset_type
                   <$> UsersByAsset.load_total_users_by_asset_type db s e)
      by (by apply list_elem_of_fmap_2).
    by apply uba_label_elem in Hl as (t & _ & _ & _ & _ & ?).
  - intros l. rewrite uba_label_elem, asset_metrics_label_elem. split.
    + intros (t & ? & ? & ? & ? & _). eauto.
    + intros (t & ? & ? & ? & ?). exists t. split_and!; eauto.
  - intros l (t & Ht & Hq & Hw & Hl & _)%uba_label_elem.
    apply get_asset_types_elem. exists t. split_and!; [done| |done].
    apply qualifying_is_listed; [done..|]. rewrite Hl. eauto.
Qed.

Lemma selection_at_most_one {A} (f : A → option string) (df : list A)
    (sel : option string) :
  NoDup (f <$> df) → (length (filter (λ r, Sql.eq (f r) sel) df) ≤ 1)%nat.
Proof.
  intros Hnd. destruct sel as [l|].
  - rewrite (list_filter_iff _ (λ r, f r = Some l)).
    + destruct (decide (Some l ∈ f <$> df)) as [Hin|Hin].
      * apply list_elem_of_fmap in Hin as (r & Hr & Hin). rewrite Hr.
        by rewrite (filter_key_unique f r df Hnd Hin).
      * rewrite (filter_key_absent f (Some l) df Hin). simpl. lia.
    + intros r. destruct (f r); simpl; split; intros ?; by simplify_eq.
  - rewrite (list_filter_iff _ (λ _, False)).
    + induction df as [|r df IH]; [simpl; lia|].
      rewrite filter_cons_False by (intros []). apply IH.
      by apply NoDup_cons in Hnd as [_ ?].
    + intros r. by destruct (f r).
Qed.

Lemma selection_nonempty {A} (f : A → option string) (df : list A)
    (sel : option string) :
  filter (λ r, Sql.eq (f r) sel) df ≠ []
  ↔ ∃ l, sel = Some l ∧ Some l ∈ f <$> df.
Proof.
  split.
  - intros Hne. destruct (filter _ df) as [|r rest] eqn:Hf; [done|].
    assert (Hin : r ∈ filter (λ r, Sql.eq (f r) sel) df)
      by (rewrite Hf; left).
    apply list_elem_of_filter in Hin as [Heq Hin].
    destruct (f r) as [l|] eqn:Hr, sel as [l'|]; simpl in Heq; try done.
    subst. exists l'. split; [done|]. rewrite <-Hr.
    by apply list_elem_of_fmap_2.
  - intros (l & -> & (r & Hr & Hin)%list_elem_of_fmap) Hnil.
    apply (filter_nil_not_elem_of _ _ r Hnil); [|done].
    by rewrite <-Hr.
Qed.

(** On the Asset Breakdown page, whatever label is selected, the selection
    keeps at most one row of the asset metrics and at most one row of the
    users-by-asset-type result, so taking the first row loses nothing;
    and the Total Users row is found exactly when the metrics row is. *)
Theorem asset_page_selection (db : database) (s e : Z)
    (selected_asset_type : option string) :
  (length (Asset.asset_row (Asset.load_asset_metrics db s e)
             selected_asset_type) ≤ 1)%nat
  ∧ (length (UsersByAsset.users_row
               (UsersByAsset.load_total_users_by_asset_type db s e)
               selected_asset_type) ≤ 1)%nat
  ∧ (Asset.asset_row (Asset.load_asset_metrics db s e)
       selected_asset_type ≠ []
     ↔ UsersByAsset.users_row
         (UsersByAsset.load_total_users_by_asset_type db s e)
         selected_asset_type ≠ []).
Proof.
  split_and!.
  - apply selection_at_most_one.
    rewrite asset_metrics_labels. apply NoDup_remove_dups.
  - apply selection_at_most_one.
    rewrite uba_labels. apply NoDup_remove_dups.
  - unfold Asset.asset_row, UsersByAsset.users_row.
    rewrite !selection_nonempty. split.
    + intros (l & -> & Hl). exists l. split; [done|].
      apply uba_label_elem.
      apply asset_metrics_label_elem in Hl as (t & ? & ? & ? & ?).
      exists t. split_and!; eauto.
    + intros (l & -> & Hl). exists l. split; [done|].
      apply asset_metrics_label_elem.
      apply uba_label_elem in Hl as (t & ? & ? & ? & ? & _). eauto.
Qed.

(** ** Counting invariants *)

Lemma length_distinct_le {A} `{EqDecision A} (l : list (option A)) :
  (length (Sql.distinct l) ≤ length l)%nat.
Proof.
  unfold Sql.distinct, Sql.non_null.
  trans (length (omap id l)).
  - apply submseteq_length, NoDup_submseteq; [apply NoDup_remove_dups|].
    intros x. by rewrite elem_of_remove_dups.
  - induction l as [|[x|] l IH]; csimpl; simpl; lia.
Qed.

Lemma distinct_length_mono {A} `{EqDecision A} (l k : list (option A)) :
  (∀ x, Some x ∈ l → Some x ∈ k) →
  (length (Sql.distinct l) ≤ length (Sql.distinct k))%nat.
Proof.
  intros Hsub. apply submseteq_length, NoDup_submseteq.
  - apply distinct_NoDup.
  - intros x. rewrite !elem_of_distinct. apply Hsub.
Qed.

Lemma user_ids_elem db (l : list transaction) c :
  c ∈ UsersByAsset.user_ids db l
  ↔ ∃ t, t ∈ l ∧ fst <$> join_u db t = Some c.
Proof.
  unfold UsersByAsset.user_ids.
  rewrite elem_of_distinct, list_elem_of_fmap. split.
  - intros (t & Hc & Ht). eauto.
  - intros (t & Ht & Hc). eauto.
Qed.

(** Every row of the users-by-asset-type result counts at least one user,
    and the rows are in descending order of that count. *)
Theorem users_by_asset_counts (db : database) (s e : Z) :
  (∀ r, r ∈ UsersByAsset.load_total_users_by_asset_type db s e →
        (1 ≤ UsersByAsset.total_users r)%nat)
  ∧ Sorted UsersByAsset.users_desc
      (UsersByAsset.load_total_users_by_asset_type db s e).
Proof.
  split; [|apply Sorted_merge_sort, _].
  intros r (g & l & [(t & Ht & Hg) ->]%uba_groups_elem & ->)%uba_elem.
  simpl.
  pose proof Ht as (_ & Hq & _)%uba_selected_elem.
  destruct (qualifies_has_customer db t Hq) as [c Hc].
  assert (Hin : c ∈ UsersByAsset.user_ids db
                      (filter (λ t0, asset_label db t0 = g)
                         (filter (UsersByAsset.selected db s e)
                            (transactions db)))).
  { apply user_ids_elem. exists t. split.
    - by apply list_elem_of_filter.
    - pose proof (qualifies_customer db t Hq) as Hcust. simpl in Hcust.
      by rewrite Hcust. }
  destruct (UsersByAsset.user_ids db _); [by apply elem_of_nil in Hin|].
  simpl. lia.
Qed.

Lemma group_row_is_user db s e g rs c :
  (g, rs) ∈ Asset.groups db s e → is_Some g → has_row rs c →
  c ∈ UsersByAsset.user_ids db
        (filter (λ t, asset_label db t = g)
           (filter (UsersByAsset.selected db s e) (transactions db))).
Proof.
  intros [_ ->]%asset_groups_elem Hg (r & [Hlab Hr]%list_elem_of_filter & Hc).
  apply asset_rows_elem in Hr as (t & Ht & Hq & Hw & ->).
  apply user_ids_elem. exists t. split; [|done].
  apply list_elem_of_filter. split; [done|].
  apply uba_selected_elem. split_and!; [done..|].
  simpl in Hlab. by rewrite Hlab.
Qed.

(** For every asset type, the depositors counted by the asset metrics are
    among the users counted by the users-by-asset-type result:
    total_depositors is at most total_users, and so is the sum of
    new_depositors and recurring_depositors. *)
Theorem depositors_at_most_users (db : database) (s e : Z)
    (am : Asset.asset_metrics) (r : UsersByAsset.users_by_asset) :
  am ∈ Asset.load_asset_metrics db s e →
  r ∈ UsersByAsset.load_total_users_by_asset_type db s e →
  Asset.am_asset_type am = UsersByAsset.uba_asset_type r →
  (total_depositors (Asset.am_metrics am) ≤ UsersByAsset.total_users r)%nat
  ∧ (new_depositors (Asset.am_metrics am)
     + recurring_depositors (Asset.am_metrics am)
     ≤ UsersByAsset.total_users r)%nat.
Proof.
  intros (g & rs & Hg & ->)%load_asset_metrics_elem
         (g' & l & [(t0 & Ht0 & Hg0) ->]%uba_groups_elem & ->)%uba_elem Heq.
  simpl in *.
  assert (Hsome : is_Some g).
  { apply uba_selected_elem in Ht0 as (_ & _ & _ & Hl).
    by rewrite Heq, <-Hg0. }
  rewrite <-Heq. clear Heq Hg0.
  pose proof (asset_group_summarised db s e g rs Hg) as Hsum.
  split.
  - apply submseteq_length, NoDup_submseteq; [apply distinct_NoDup|].
    intros c (r & Hr & _ & Hc)%total_ids_iff.
    apply (group_row_is_user db s e g rs c Hg Hsome). by exists r.
  - rewrite <-length_app.
    apply submseteq_length, NoDup_submseteq.
    + apply NoDup_app. split_and!; [apply distinct_NoDup| |apply distinct_NoDup].
      intros c. apply (new_not_recurring _ _ Hsum).
    + intros c [Hc|Hc]%elem_of_app;
        apply (group_row_is_user db s e g rs c Hg Hsome).
      * by apply (new_ids_iff _ _ Hsum) in Hc as [? _].
      * by apply (recurring_ids_iff _ _ Hsum) in Hc as [? _].
Qed.

Lemma depositors_at_most_users_witness :
  ∃ am r,
    am ∈ Asset.load_asset_metrics Samples.old_depositor 0 45
    ∧ r ∈ UsersByAsset.load_total_users_by_asset_type
            Samples.old_depositor 0 45
    ∧ Asset.am_asset_type am = UsersByAsset.uba_asset_type r
    ∧ (total_depositors (Asset.am_metrics am)
       ≤ UsersByAsset.total_users r)%nat.
Proof.
  assert (H1 : ∀ A (x : A) l, head l = Some x → x ∈ l).
  { intros A x [|y l]; [done|]. intros [= ->]. left. }
  pose proof (H1 _ _ (Asset.load_asset_metrics Samples.old_depositor 0 45)
                eq_refl) as Ham.
  pose proof (H1 _ _ (UsersByAsset.load_total_users_by_asset_type
                        Samples.old_depositor 0 45) eq_refl) as Hr.
  eexists _, _. split; [exact Ham|]. split; [exact Hr|].
  split; [reflexivity|].
  exact (proj1 (depositors_at_most_users Samples.old_depositor 0 45
                  _ _ Ham Hr eq_refl)).
Defined.

(** In the general metrics and in every row of the asset metrics, the
    number of distinct depositors is at most the number of deposits, and
    overall the number of distinct withdrawers is at most the number of
    withdrawals. *)
Theorem depositors_at_most_deposits (db : database) (s e : Z) :
  (total_depositors (General.common (General.load_general_metrics db s e))
   ≤ deposit_count (General.common (General.load_general_metrics db s e)))%nat
  ∧ (General.total_withdrawers (General.load_general_metrics db s e)
     ≤ withdrawal_count
         (General.common (General.load_general_metrics db s e)))%nat
  ∧ (∀ am, am ∈ Asset.load_asset_metrics db s e →
       (total_depositors (Asset.am_metrics am)
        ≤ deposit_count (Asset.am_metrics am))%nat).
Proof.
  split_and!.
  - simpl. unfold total_depositor_ids, Sql.count.
    etrans; [apply length_distinct_le|]. by rewrite length_fmap.
  - simpl. unfold General.total_withdrawer_ids, Sql.count.
    etrans; [apply length_distinct_le|]. by rewrite length_fmap.
  - intros am (g & rs & Hg & ->)%load_asset_metrics_elem. simpl.
    unfold total_depositor_ids, Sql.count.
    etrans; [apply length_distinct_le|]. by rewrite length_fmap.
Qed.

Lemma omap_id_is_Some {A} (l : list (option A)) :
  Some <$> omap id l = filter is_Some l.
Proof.
  induction l as [|[x|] l IH]; [done| |]; csimpl.
  - rewrite filter_cons_True by eauto. by rewrite <-IH.
  - rewrite filter_cons_False by (by intros [? ?]). done.
Qed.

Lemma remove_dups_fmap_Some {A} `{EqDecision A} (l : list A) :
  remove_dups (Some <$> l) = Some <$> remove_dups l.
Proof.
  induction l as [|x l IH]; [done|]. rewrite fmap_cons.
  change (remove_dups (Some x :: (Some <$> l)))
    with (if decide_rel (∈) (Some x) (Some <$> l)
          then remove_dups (Some <$> l)
          else Some x :: remove_dups (Some <$> l)).
  change (remove_dups (x :: l))
    with (if decide_rel (∈) x l then remove_dups l else x :: remove_dups l).
  destruct (decide_rel (∈) (Some x) (Some <$> l)) as [Hin|Hin],
           (decide_rel (∈) x l) as [Hin'|Hin'].
  - exact IH.
  - exfalso. apply Hin'.
    by apply list_elem_of_fmap in Hin as (y & [= ->] & ?).
  - exfalso. apply Hin. by apply list_elem_of_fmap_2.
  - rewrite fmap_cons. f_equal. exact IH.
Qed.

(** The asset_type_count of the general metrics is the number of rows of
    the users-by-asset-type result of the same window, that is the number
    of asset-metrics rows with a label. *)
Theorem asset_type_count_is_labelled_rows (db : database) (s e : Z) :
  General.asset_type_count (General.load_general_metrics db s e)
  = length (UsersByAsset.load_total_users_by_asset_type db s e)
  ∧ General.asset_type_count (General.load_general_metrics db s e)
    = length (filter is_Some
                (Asset.am_asset_type <$> Asset.load_asset_metrics db s e)).
Proof.
  assert (Hcount :
    General.asset_type_count (General.load_general_metrics db s e)
    = length (filter is_Some
                (remove_dups ((λ r, asset_type (bd r))
                              <$> Asset.rows db s e)))).
  { simpl. unfold Sql.count_distinct, Sql.distinct, Sql.non_null.
    rewrite (list_fmap_compose bd asset_type), general_rows_bd,
      <-asset_rows_bd, <-list_fmap_compose.
    rewrite <-(length_fmap Some), <-remove_dups_fmap_Some, omap_id_is_Some.
    apply Permutation_length, NoDup_Permutation.
    - apply NoDup_remove_dups.
    - apply NoDup_filter, NoDup_remove_dups.
    - intros x. rewrite elem_of_remove_dups, !list_elem_of_filter,
        elem_of_remove_dups. done. }
  split.
  - rewrite Hcount, <-(length_fmap UsersByAsset.uba_asset_type), uba_labels.
    apply Permutation_length, NoDup_Permutation.
    + apply NoDup_filter, NoDup_remove_dups.
    + apply NoDup_remove_dups.
    + intros g.
      rewrite list_elem_of_filter, !elem_of_remove_dups, !list_elem_of_fmap.
      split.
      * intros [Hs (r & -> & (t & Ht & Hq & Hw & ->)%asset_rows_elem)].
        exists t. split; [done|]. by apply uba_selected_elem.
      * intros (t & -> & (Ht & Hq & Hw & Hs)%uba_selected_elem).
        split; [done|]. eexists. split; [|apply asset_rows_elem; eauto]. done.
  - rewrite Hcount. apply Permutation_length.
    by rewrite asset_metrics_labels.
Qed.

(** ** Windows *)

Lemma general_rows_mono db s e s' e' r :
  s' ≤ s → e ≤ e' → r ∈ General.rows db s e → r ∈ General.rows db s' e'.
Proof.
  intros Hs He (t & Ht & Hq & Hw & ->)%general_rows_elem.
  apply general_rows_elem. exists t. split_and!; [done..| |done].
  unfold ts_between, midnight in *. lia.
Qed.

Lemma new_filter_mono s e s' e' r :
  s' ≤ s → e ≤ e' → new_filter s e r → new_filter s' e' r.
Proof.
  intros Hs He. unfold new_filter, date_between.
  destruct (j_tx_days r), (j_first_deposit_date r); try done. lia.
Qed.

Lemma column_mono {A} `{EqDecision A} (col : joined_row → option A)
    (P Q : joined_row → Prop) `{∀ r, Decision (P r)} `{∀ r, Decision (Q r)}
    (rows rows' : list joined_row) :
  (∀ r, r ∈ rows → r ∈ rows') → (∀ r, P r → Q r) →
  (length (Sql.distinct (col <$> filter P rows))
   ≤ length (Sql.distinct (col <$> filter Q rows')))%nat.
Proof.
  intros Hrows HPQ. apply distinct_length_mono. intros x.
  rewrite !list_elem_of_fmap.
  intros (r & Hx & [HP Hr]%list_elem_of_filter).
  exists r. split; [done|]. apply list_elem_of_filter. auto.
Qed.

Lemma filter_length_mono {A} (P Q : A → Prop) `{∀ x, Decision (P x)}
    `{∀ x, Decision (Q x)} (l : list A) :
  (∀ x, P x → Q x) → (length (filter P l) ≤ length (filter Q l))%nat.
Proof.
  intros HPQ. induction l as [|x l IH]; [done|].
  rewrite !filter_cons.
  destruct (decide (P x)) as [HP|HP], (decide (Q x)) as [HQ|HQ];
    simpl; try lia.
  by destruct HQ; apply HPQ.
Qed.

(** Widening the window never lowers a count of the general metrics:
    deposits, withdrawals, depositors, withdrawers, recurring and new
    depositors and asset types. *)
Theorem general_counts_grow_with_window (db : database) (s e s' e' : Z) :
  s' ≤ s → e ≤ e' →
  let m := General.load_general_metrics db s e in
  let m' := General.load_general_metrics db s' e' in
  (deposit_count (General.common m)
   ≤ deposit_count (General.common m'))%nat
  ∧ (withdrawal_count (General.common m)
     ≤ withdrawal_count (General.common m'))%nat
  ∧ (total_depositors (General.common m)
     ≤ total_depositors (General.common m'))%nat
  ∧ (General.total_withdrawers m ≤ General.total_withdrawers m')%nat
  ∧ (recurring_depositors (General.common m)
     ≤ recurring_depositors (General.common m'))%nat
  ∧ (new_depositors (General.common m)
     ≤ new_depositors (General.common m'))%nat
  ∧ (General.asset_type_count m ≤ General.asset_type_count m')%nat.
Proof.
  intros Hs He.
  assert (Hrows : ∀ r, r ∈ General.rows db s e → r ∈ General.rows db s' e')
    by (intros r; by apply general_rows_mono).
  assert (Hcount : ∀ ty,
            (Sql.count (filter (type_is ty) (General.rows db s e))
             ≤ Sql.count (filter (type_is ty) (General.rows db s' e')))%nat).
  { intros ty.
    rewrite !(count_typed db ty _ _ (general_typed db _ _ ty)).
    unfold counted. apply filter_length_mono.
    intros t (? & ? & ?). split_and!; [done| |done].
    unfold ts_between, midnight in *. lia. }
  simpl. split_and!.
  - apply Hcount.
  - apply Hcount.
  - by apply column_mono.
  - by apply column_mono.
  - by apply column_mono.
  - apply column_mono; [done|]. intros r. by apply new_filter_mono.
  - unfold Sql.count_distinct. apply distinct_length_mono. intros x.
    rewrite !list_elem_of_fmap. intros (r & Hx & Hr). eauto.
Qed.

Lemma general_counts_grow_with_window_witness :
  (deposit_count
     (General.common (General.load_general_metrics Samples.old_depositor 35 45))
   ≤ deposit_count
       (General.common (General.load_general_metrics Samples.old_depositor 0 45)))%nat.
Proof.
  exact (proj1 (general_counts_grow_with_window Samples.old_depositor
                  35 45 0 45 ltac:(lia) ltac:(lia))).
Defined.

(** With the "Today" filter the window is the single instant of today's
    midnight: the general metrics count exactly the qualifying deposits
    and withdrawals stamped at 00:00:00 of today, and no transaction made
    later that day. *)
Theorem today_counts_midnight_only (db : database) (today : Z) :
  let r := DateRange.get_date_range "Today" today in
  let m := General.common (General.load_general_metrics db r.1 r.2) in
  deposit_count m
  = length (filter (λ t, qualifies db t
                         ∧ t_updated_at t = midnight today
                         ∧ effective_type t = "deposit")
              (transactions db))
  ∧ withdrawal_count m
    = length (filter (λ t, qualifies db t
                           ∧ t_updated_at t = midnight today
                           ∧ effective_type t = "withdrawal")
                (transactions db))
  ∧ (∀ t ty, t ∈ counted db r.1 r.2 ty → t_updated_at t = midnight today).
Proof.
  assert (Hw : ∀ ts, ts_between today today ts ↔ ts = midnight today)
    by (intros ts; unfold ts_between; lia).
  simpl. split_and!.
  - rewrite (count_typed db "deposit" _ _ (general_typed db _ _ "deposit")).
    unfold counted. f_equal. apply list_filter_iff. intros t.
    by rewrite Hw.
  - rewrite (count_typed db "withdrawal" _ _
               (general_typed db _ _ "withdrawal")).
    unfold counted. f_equal. apply list_filter_iff. intros t.
    by rewrite Hw.
  - intros t ty (_ & _ & Hin & _)%counted_elem. by apply Hw.
Qed.

(** ** The transaction trend *)

Lemma day_of_month_le_31 (d : Z) : Trend.day_of_month d ≤ 31.
Proof.
  unfold Trend.day_of_month.
  Z.to_euclidean_division_equations. lia.
Qed.

Lemma date_trunc_bounds (g : Trend.granularity) (ts : Z) :
  Trend.date_trunc g ts ≤ ts < Trend.date_trunc g ts + span g
  ∧ Trend.date_trunc g ts `mod` 86400 = 0.
Proof.
  pose proof (day_of_month_pos (date_of ts)).
  pose proof (day_of_month_le_31 (date_of ts)).
  unfold Trend.date_trunc, midnight, date_of in *.
  destruct g; simpl; (split; [|by rewrite Z.mod_mul]);
    Z.to_euclidean_division_equations; lia.
Qed.

Lemma trend_keys db s e g :
  (λ p, (Trend.period p, Trend.tx_type p))
  <$> Trend.load_transaction_trend db s e g
  ≡ₚ (Trend.groups db s e g).*1.
Proof.
  unfold Trend.load_transaction_trend.
  rewrite merge_sort_Permutation, <-list_fmap_compose.
  rewrite (list_fmap_ext _ fst); [done|]. by intros ? [[] ?].
Qed.

(** The trend rows are in ascending order of period, no two of them have
    the same period and type (so the page's pivot on period and type meets
    no duplicate entry), and each carries a total. *)
Theorem trend_rows_ordered_and_distinct (db : database) (s e : Z)
    (g : Trend.granularity) :
  Sorted Trend.period_asc (Trend.load_transaction_trend db s e g)
  ∧ NoDup ((λ p, (Trend.period p, Trend.tx_type p))
           <$> Trend.load_transaction_trend db s e g)
  ∧ (∀ p, p ∈ Trend.load_transaction_trend db s e g →
          is_Some (Trend.total_amount p)).
Proof.
  split_and!.
  - apply trend_sorted.
  - rewrite trend_keys. apply group_by_keys_NoDup.
  - intros p [(t & Ht & Hs & Hd & Hty) Hsum]%trend_point_elem.
    rewrite Hsum.
    destruct (filter _ (transactions db)) as [|t' l] eqn:Hf; [|simpl; eauto].
    exfalso. apply (filter_nil_not_elem_of _ _ t Hf); [|done]. done.
Qed.

(** Every trend row stands for at least one selected transaction of its
    raw type that falls inside its period; the period starts at a
    midnight, is not after the end of the window, and begins less than one
    period (a day, a week, 31 days) before the start of the window. *)
Theorem trend_periods_cover_window (db : database) (s e : Z)
    (g : Trend.granularity) (p : Trend.trend_point) :
  p ∈ Trend.load_transaction_trend db s e g →
  (∃ t, t ∈ transactions db ∧ Trend.selected db s e t
        ∧ t_tx_type t = Trend.tx_type p
        ∧ Trend.period p ≤ t_updated_at t < Trend.period p + span g)
  ∧ Trend.period p `mod` 86400 = 0
  ∧ midnight s - span g < Trend.period p ≤ midnight e.
Proof.
  intros [(t & Ht & Hs & Hd & Hty) _]%trend_point_elem.
  destruct (date_trunc_bounds g (t_updated_at t)) as [Hb Hm].
  rewrite Hd in Hb, Hm.
  pose proof Hs as [_ [? ?]].
  split_and!; [by exists t|done|lia|lia].
Qed.

Lemma trend_periods_cover_window_witness :
  ∃ p, p ∈ Trend.load_transaction_trend Samples.early_and_late 0 45 Trend.Week
       ∧ Trend.period p `mod` 86400 = 0.
Proof.
  assert (H1 : ∀ A (x : A) l, head l = Some x → x ∈ l).
  { intros A x [|y l]; [done|]. intros [= ->]. left. }
  pose proof (H1 _ _ (Trend.load_transaction_trend Samples.early_and_late
                        0 45 Trend.Week) eq_refl) as Hin.
  eexists. split; [exact Hin|].
  exact (proj1 (proj2 (trend_periods_cover_window _ _ _ _ _ Hin))).
Defined.

(** ** The asset-type listing *)

(** The list offered by the selection box has no repeated label, no
    absent label, and is in ascending order. *)
Theorem asset_types_listing (db : database) (s e : Z) :
  NoDup (get_asset_types db s e)
  ∧ Sorted label_asc (get_asset_types db s e)
  ∧ (∀ g, g ∈ get_asset_types db s e → is_Some g).
Proof.
  split_and!.
  - unfold get_asset_types. rewrite merge_sort_Permutation.
    apply NoDup_remove_dups.
  - apply Sorted_merge_sort, _.
  - intros g (t & _ & (_ & _ & Hsome) & <-)%get_asset_types_elem. done.
Qed.

(** ** The previous calendar month *)

Lemma all_days_spec (f : Z → bool) (n : nat) (d k : Z) :
  DateRange.all_days f d n = true → d ≤ k < d + Z.of_nat n → f k = true.
Proof.
  revert d. induction n as [|n IH]; intros d Hall Hk; [lia|].
  simpl in Hall. apply andb_prop in Hall as [Hd Hrest].
  destruct (decide (k = d)) as [->|Hne]; [done|].
  apply (IH (d + 1)); [done|lia].
Qed.

(** 2022-01-01 is day 18993 and 2099-12-31 is 28488 days later. *)
Lemma month_starts_checked :
  DateRange.all_days DateRange.month_start_ok 18993 (Z.to_nat 28489) = true.
Proof. vm_compute. reflexivity. Qed.

Lemma get_date_range_last_month (today : Z) :
  DateRange.get_date_range "Last Month" today
  = (DateRange.replace_day_1 (DateRange.replace_day_1 today - 1),
     DateRange.replace_day_1 today - 1).
Proof. unfold DateRange.get_date_range. by repeat case_decide. Qed.

(** Between 2022-01-01 and 2099-12-31, "Last Month" is the whole calendar
    month before today's: it starts on a first of the month, ends on the
    day before the first of today's month, and covers 28 to 31 days. *)
Theorem last_month_is_previous_month (today : Z) :
  18993 ≤ today < 18993 + 28489 →
  let r := DateRange.get_date_range "Last Month" today in
  Trend.day_of_month r.1 = 1
  ∧ r.2 + 1 = DateRange.replace_day_1 today
  ∧ Trend.day_of_month (r.2 + 1) = 1
  ∧ 27 ≤ r.2 - r.1 ≤ 30.
Proof.
  intros Hrange.
  pose proof (all_days_spec _ _ _ today month_starts_checked) as Hall.
  rewrite Z2Nat.id in Hall by lia. specialize (Hall Hrange).
  unfold DateRange.month_start_ok in Hall.
  repeat (apply andb_prop in Hall as [Hall ?]).
  rewrite get_date_range_last_month. cbv zeta. simpl.
  replace (DateRange.replace_day_1 today - 1 + 1)
    with (DateRange.replace_day_1 today) by lia.
  split_and!; lia.
Qed.

Lemma last_month_is_previous_month_witness :
  let r := DateRange.get_date_range "Last Month" 20000 in
  Trend.day_of_month r.1 = 1 ∧ 27 ≤ r.2 - r.1 ≤ 30.
Proof.
  destruct (last_month_is_previous_month 20000 ltac:(lia))
    as (H1 & _ & _ & H2).
  exact (conj H1 H2).
Defined.

(** ** load_user_insights *)

Lemma elem_of_left_join {A B} (on : A → B → Prop)
    `{∀ a b, Decision (on a b)} (l : list A) (r : list B) a ob :
  (a, ob) ∈ Sql.left_join on l r
  ↔ a ∈ l ∧ ((ob = None ∧ ∀ b, b ∈ r → ¬ on a b)
             ∨ ∃ b, ob = Some b ∧ b ∈ r ∧ on a b).
Proof.
  unfold Sql.left_join. rewrite list_elem_of_bind. split.
  - intros (a' & Hin & Ha'). split.
    + destruct (filter (on a') r);
        [apply list_elem_of_singleton in Hin
        |apply list_elem_of_fmap in Hin as (? & Hin & _)];
        by simplify_eq.
    + destruct (filter (on a') r) as [|b ms] eqn:Hf.
      * apply list_elem_of_singleton in Hin. simplify_eq. left.
        split; [done|]. intros b Hb Hon.
        by apply (filter_nil_not_elem_of _ _ b Hf).
      * apply list_elem_of_fmap in Hin as (b' & Heq & Hb'). simplify_eq.
        right. exists b'. rewrite <-Hf in Hb'.
        apply list_elem_of_filter in Hb' as [? ?]. done.
  - intros [Ha [[-> Hno]|(b & -> & Hb & Hon)]]; exists a; (split; [|done]).
    + destruct (filter (on a) r) as [|b ms] eqn:Hf; [left|].
      exfalso. apply (Hno b).
      * assert (Hb : b ∈ filter (on a) r) by (rewrite Hf; left).
        by apply list_elem_of_filter in Hb as [_ ?].
      * assert (Hb : b ∈ filter (on a) r) by (rewrite Hf; left).
        by apply list_elem_of_filter in Hb as [? _].
    + assert (Hin : b ∈ filter (on a) r) by (by apply list_elem_of_filter).
      destruct (filter (on a) r) as [|b0 ms]; [by apply elem_of_nil in Hin|].
      by apply (list_elem_of_fmap_2 (λ b1, (a, Some b1))).
Qed.

Lemma active_users_elem src db s e (c : Z) :
  Some c ∈ Insights.active_users src db s e
  ↔ Some c ∈ Insights.created_in s e (Insights.budgets src)
    ∨ Some c ∈ Insights.created_in s e
                 (Insights.manual_and_external_transactions src)
    ∨ Some c ∈ Insights.created_in s e (Insights.investment_plans_created src)
    ∨ Some c ∈ Insights.created_in s e (Insights.plans_created src)
    ∨ ∃ t, t ∈ transactions db ∧ t_status t = "success"
           ∧ ts_between s e (t_updated_at t) ∧ owner db t = Some c.
Proof.
  unfold Insights.active_users, Insights.transacting.
  rewrite elem_of_remove_dups, !elem_of_app, elem_of_remove_dups,
    list_elem_of_fmap.
  do 4 (apply or_iff_compat_l || idtac). split.
  - intros (t & Ho & [[? ?] ?]%list_elem_of_filter). eauto 10.
  - intros (t & ? & ? & ? & ?). exists t. split; [done|].
    by apply list_elem_of_filter.
Qed.

(** Every row of the user insights is a user created inside the window;
    it is flagged active exactly when, inside the window, the user created
    a budget, a manual or external transaction, an investment plan or a
    plan, or owns a successful transaction (of any provider, whether or
    not the user is restricted); it is flagged recent exactly when a user
    row with its id has its most recent activity on a day of the window. *)
Theorem insights_flags (users : list user_row)
    (profiles : list Insights.profile) (src : Insights.sources)
    (db : database) (s e : Z) (i : Insights.insight) :
  i ∈ Insights.load_user_insights users profiles src db s e →
  ts_between s e (Insights.created_at i)
  ∧ (Insights.is_active i = true
     ↔ Some (Insights.user_id i)
         ∈ Insights.created_in s e (Insights.budgets src)
       ∨ Some (Insights.user_id i)
           ∈ Insights.created_in s e
               (Insights.manual_and_external_transactions src)
       ∨ Some (Insights.user_id i)
           ∈ Insights.created_in s e (Insights.investment_plans_created src)
       ∨ Some (Insights.user_id i)
           ∈ Insights.created_in s e (Insights.plans_created src)
       ∨ ∃ t, t ∈ transactions db ∧ t_status t = "success"
              ∧ ts_between s e (t_updated_at t)
              ∧ owner db t = Some (Insights.user_id i))
  ∧ (Insights.is_recent i = true
     ↔ ∃ u, u ∈ users ∧ ur_id u = Insights.user_id i
            ∧ Insights.recent s e u).
Proof.
  unfold Insights.load_user_insights.
  intros ([[[u p] ra] au] & -> & [Hw Hin]%list_elem_of_filter)%list_elem_of_fmap.
  simpl in Hw.
  apply elem_of_left_join in Hin as [Hin Hau].
  apply elem_of_left_join in Hin as [Hin Hra].
  apply elem_of_left_join in Hin as [Hu _].
  split_and!; [done| |]; simpl.
  - rewrite bool_decide_eq_true, <-active_users_elem. split.
    + intros [x ->]. destruct Hau as [[? _]|(b & [= <-] & Hb & Hon)]; [done|].
      unfold Insights.on_active in Hon. simpl in Hon.
      destruct x; [|done]. simpl in Hon. by subst.
    + intros Hc. destruct Hau as [[-> Hno]|(b & -> & _)]; [|eauto].
      exfalso. by apply (Hno _ Hc).
  - rewrite bool_decide_eq_true. unfold Insights.recent_activity in Hra.
    split.
    + intros [x ->]. destruct Hra as [[? _]|(b & [= <-] & Hb & Hon)]; [done|].
      unfold Insights.on_recent in Hon. simpl in Hon. subst x.
      apply list_elem_of_fmap in Hb
        as (u' & Hid & [Hrec Hu']%list_elem_of_filter).
      exists u'. by split_and!.
    + intros (u' & Hu' & Hid & Hrec).
      destruct Hra as [[-> Hno]|(b & -> & _)]; [|eauto].
      exfalso. apply (Hno (ur_id u')).
      * apply list_elem_of_fmap. exists u'. split; [done|].
        by apply list_elem_of_filter.
      * unfold Insights.on_recent. by simpl.
Qed.

Lemma insights_flags_witness :
  ∃ i, i ∈ Insights.load_user_insights
             [ registered_user 1 (3 * 86400) (3 * 86400) None ] []
             {| Insights.budgets := []; 
                Insights.manual_and_external_transactions := [];
                Insights.investment_plans_created := [];
                Insights.plans_created := [] |}
             Samples.restricted_only 0 10
       ∧ Insights.is_active i = true.
Proof.
  assert (H1 : ∀ A (x : A) l, head l = Some x → x ∈ l).
  { intros A x [|y l]; [done|]. intros [= ->]. left. }
  pose proof (H1 _ _ (Insights.load_user_insights
             [ registered_user 1 (3 * 86400) (3 * 86400) None ] []
             {| Insights.budgets := []; 
                Insights.manual_and_external_transactions := [];
                Insights.investment_plans_created := [];
                Insights.plans_created := [] |}
             Samples.restricted_only 0 10) eq_refl) as Hin.
  eexists. split; [exact Hin|].
  apply (proj1 (proj2 (insights_flags _ _ _ _ _ _ _ Hin))).
  do 4 right. eexists. split; [left|]. by vm_compute.
Defined.

Lemma NoDup_fmap_filter {A B} (f : A → B) (P : A → Prop)
    `{∀ x, Decision (P x)} (l : list A) :
  NoDup (f <$> l) → NoDup (f <$> filter P l).
Proof.
  induction l as [|x l IH]; [done|].
  rewrite fmap_cons, NoDup_cons. intros [Hx Hl].
  rewrite filter_cons. destruct (decide (P x)); [|auto].
  rewrite fmap_cons, NoDup_cons. split; [|auto].
  intros (y & Hy & [_ Hin]%list_elem_of_filter)%list_elem_of_fmap.
  apply Hx. rewrite Hy. by apply list_elem_of_fmap_2.
Qed.

Lemma insights_ids (users : list user_row)
    (profiles : list Insights.profile) (src : Insights.sources)
    (db : database) (s e : Z) :
  NoDup (ur_id <$> users) →
  NoDup (Insights.pr_user_id <$> profiles) →
  Insights.user_id <$> Insights.load_user_insights users profiles src db s e
  ≡ₚ ur_id <$> filter (λ u, ts_between s e (ur_created_at u)) users.
Proof.
  intros Hids Hprof. unfold Insights.load_user_insights.
  rewrite (left_join_lookup Insights.on_profile
             (λ u, Some (Some (ur_id u))) Insights.pr_user_id users profiles);
    [|intros u p; unfold Insights.on_profile;
      destruct (Insights.pr_user_id p); simpl;
      (split; intros ?; by simplify_eq)|done].
  rewrite (left_join_lookup Insights.on_recent
             (λ r, Some (ur_id r.1)) id);
    [|intros r ra; unfold Insights.on_recent;
      (split; intros ?; by simplify_eq)
     |rewrite list_fmap_id; by apply NoDup_fmap_filter].
  rewrite (left_join_lookup Insights.on_active
             (λ r, Some (Some (ur_id r.1.1))) id);
    [|intros r au; unfold Insights.on_active; destruct au; simpl;
      (split; intros ?; by simplify_eq)
     |rewrite list_fmap_id; apply NoDup_remove_dups].
  rewrite <-!list_fmap_compose, filter_fmap, <-!list_fmap_compose. done.
Qed.

Lemma date_between_cutoff s e ts :
  date_between s e ts
  ↔ ts_between s e ts ∨ (s ≤ e ∧ date_of ts = e ∧ midnight e < ts).
Proof.
  unfold date_between, ts_between, date_of, midnight.
  Z.to_euclidean_division_equations. lia.
Qed.

(** When user ids are unique and no two profiles share a user id, the
    user insights have exactly one row per user created inside the window
    (the ids of the rows are those users' ids, each once, in whatever
    order the rows come); the overview's Registered Users count exceeds
    the number of these rows by exactly the users created on the end date
    after 00:00:00. *)
Theorem insights_rows_and_registered (users : list user_row)
    (profiles : list Insights.profile) (src : Insights.sources)
    (db : database) (s e : Z) :
  NoDup (ur_id <$> users) →
  NoDup (Insights.pr_user_id <$> profiles) →
  Insights.user_id <$> Insights.load_user_insights users profiles src db s e
  ≡ₚ ur_id <$> filter (λ u, ts_between s e (ur_created_at u)) users
  ∧ (UserCounts.load_user_counts users s e).1
    = ((Insights.page_figures
          (Insights.load_user_insights users profiles src db s e)).1.1
       + length (filter (λ u, (s ≤ e ∧ date_of (ur_created_at u) = e
                               ∧ midnight e < ur_created_at u)%Z) users))%nat.
Proof.
  intros Hids Hprof.
  pose proof (insights_ids users profiles src db s e Hids Hprof) as Hrows.
  split; [done|]. simpl.
  apply Permutation_length in Hrows. rewrite !length_fmap in Hrows.
  rewrite Hrows. unfold Sql.count. apply filter_split_length.
  - intros u. apply date_between_cutoff.
  - intros u [_ Hle] (_ & _ & Hgt). lia.
Qed.

Lemma insights_rows_and_registered_witness :
  Insights.user_id
  <$> Insights.load_user_insights
        [ registered_user 1 (3 * 86400) (3 * 86400) None;
          registered_user 2 (10 * 86400 + 60) (10 * 86400 + 60) None ] []
        {| Insights.budgets := []; 
           Insights.manual_and_external_transactions := [];
           Insights.investment_plans_created := [];
           Insights.plans_created := [] |}
        Samples.restricted_only 0 10
  ≡ₚ [1].
Proof.
  refine (proj1 (insights_rows_and_registered _ _ _ _ 0 10 _ _)).
  - apply (bool_decide_unpack _). by vm_compute.
  - apply (bool_decide_unpack _). by vm_compute.
Defined.

(** ** Order and sign of the asset metrics *)

(** The asset metrics come in descending order of deposit_value_usd, rows
    without that sum last: every row stands before all rows with a smaller
    or an absent sum. *)
Theorem asset_metrics_ordered (db : database) (s e : Z) :
  StronglySorted Asset.usd_desc_nulls_last (Asset.load_asset_metrics db s e).
Proof. apply StronglySorted_merge_sort; apply _. Qed.

Lemma qsum_nonneg {A} (f : A → Qc) (l : list A) :
  (∀ x, x ∈ l → (0 ≤ f x)%Qc) → (0 ≤ qsum f l)%Qc.
Proof.
  induction l as [|x l IH]; intros Hf; [done|].
  rewrite qsum_cons. apply Qcplus_nonneg_nonneg.
  - apply Hf. left.
  - apply IH. intros y Hy. apply Hf. by right.
Qed.

Lemma group_sum_nonneg db s e g rs (col : base_row → Qc)
    (tcol : transaction → Qc) ty :
  (g, rs) ∈ Asset.groups db s e →
  (∀ t, col (base_of db t) = tcol t) →
  (∀ t, t ∈ transactions db → (0 ≤ tcol t)%Qc) →
  (0 ≤ Sql.coalesce0 (sum_of col ty rs) 0)%Qc.
Proof.
  intros Hg Hcol Hpos.
  rewrite (sum_of_typed col tcol db ty rs _ Hcol (group_typed db s e g rs ty Hg)).
  rewrite qsum_sql. apply qsum_nonneg.
  intros t [(Ht & _)%counted_elem _]%counted_in_elem. by apply Hpos.
Qed.

(** When no recorded amount is negative, no estimated revenue is. *)
Theorem estimated_revenue_nonneg (db : database) (s e : Z)
    (am : Asset.asset_metrics) :
  amounts_nonneg db →
  am ∈ Asset.load_asset_metrics db s e →
  (0 ≤ Asset.estimated_revenue am)%Qc.
Proof.
  intros Hpos (g & rs & Hg & ->)%load_asset_metrics_elem. simpl.
  assert (Hdg : (0 ≤ Sql.coalesce0 (sum_of ghs_amount "deposit" rs) 0)%Qc).
  { apply (group_sum_nonneg db s e g rs ghs_amount t_amount); [done..|].
    intros t Ht. by apply Hpos. }
  assert (Hwg : (0 ≤ Sql.coalesce0 (sum_of ghs_amount "withdrawal" rs) 0)%Qc).
  { apply (group_sum_nonneg db s e g rs ghs_amount t_amount); [done..|].
    intros t Ht. by apply Hpos. }
  assert (Hdu : (0 ≤ Sql.coalesce0 (sum_of usd_amount "deposit" rs) 0)%Qc).
  { apply (group_sum_nonneg db s e g rs usd_amount t_usd_amount); [done..|].
    intros t Ht. by apply Hpos. }
  unfold Asset.estimated_revenue_of.
  repeat case_decide; try done;
    apply Qcmult_nonneg_nonneg; try done;
    try (by apply Qcplus_nonneg_nonneg); by vm_compute.
Qed.

Lemma estimated_revenue_nonneg_witness :
  ∃ am, am ∈ Asset.load_asset_metrics Samples.old_depositor 0 45
        ∧ (0 ≤ Asset.estimated_revenue am)%Qc.
Proof.
  assert (H1 : ∀ A (x : A) l, head l = Some x → x ∈ l).
  { intros A x [|y l]; [done|]. intros [= ->]. left. }
  pose proof (H1 _ _ (Asset.load_asset_metrics Samples.old_depositor 0 45)
                eq_refl) as Hin.
  eexists. split; [exact Hin|].
  apply (estimated_revenue_nonneg Samples.old_depositor 0 45 _); [|exact Hin].
  intros t Ht.
  repeat (apply elem_of_cons in Ht as [->|Ht]; [by vm_compute|]).
  by apply elem_of_nil in Ht.
Defined.
